(** * CartPole: a shallow embedding of [CartPole.py] over the real numbers

    The Python module works on IEEE doubles; the embedding below replaces
    them by the real numbers of the standard library, so every statement is
    about the formulas of the program in exact arithmetic.  Python exceptions
    become an explicit error type, [while] loops become fuelled iterations
    together with a proof that the fuel we hand them is always sufficient,
    and numpy arrays become lists tagged with their number of dimensions. *)

From Stdlib Require Import Reals Lra Lia List ZArith Bool.
Import ListNotations.

Open Scope R_scope.

(** ** Exceptions and results *)

Inductive exn : Type :=
| AssertionError
| AttributeError
| UnboundLocalError
| IndexError
| TypeError
| ValueError
| LinAlgError.

Inductive result (A : Type) : Type :=
| Ok (a : A)
| Raise (e : exn).

Arguments Ok {A} a.
Arguments Raise {A} e.

Definition bind {A B : Type} (r : result A) (k : A -> result B) : result B :=
  match r with
  | Ok a => k a
  | Raise e => Raise e
  end.

Notation "x <- c ;; k" := (bind c (fun x => k))
  (at level 61, c at next level, right associativity).

(** ** Angle normaliser: [_remap_angle] *)

Module Angle.

(** [while theta < -np.pi: theta += 2. * np.pi] *)
Fixpoint raise_loop (fuel : nat) (theta : R) : option R :=
  match fuel with
  | O => None
  | S fuel' =>
      if Rlt_dec theta (- PI)
      then raise_loop fuel' (theta + 2 * PI)
      else Some theta
  end.

(** [while theta > np.pi: theta -= 2. * np.pi] *)
Fixpoint lower_loop (fuel : nat) (theta : R) : option R :=
  match fuel with
  | O => None
  | S fuel' =>
      if Rgt_dec theta PI
      then lower_loop fuel' (theta - 2 * PI)
      else Some theta
  end.

(** The body of [_remap_angle]: the two loops in sequence.  [None] means
    that the fuel ran out before a loop condition became false. *)
Definition remap_run (fuel : nat) (theta : R) : option R :=
  match raise_loop fuel theta with
  | Some t => lower_loop fuel t
  | None => None
  end.

(** A number of iterations that is always enough: one more than
    [|theta| / 2pi] rounded up. *)
Definition remap_fuel (theta : R) : nat :=
  S (Z.to_nat (up (Rabs theta / (2 * PI)))).

(** [_remap_angle] as a total function.  The default branch is never taken
    (lemma [remap_run_enough]). *)
Definition _remap_angle (theta : R) : R :=
  match remap_run (remap_fuel theta) theta with
  | Some r => r
  | None => theta
  end.

Definition remap_angle (theta : R) : R := _remap_angle theta.

End Angle.

(** ** The fragment of numpy the program uses *)

Module Numpy.

(** Arrays by number of dimensions.  [Scal] is a Python float or a 0-d
    array, [ObjArr2] a 2-d array of dtype [object] whose entries may be
    [None] (numpy builds one when a list holding [None] is stacked). *)
Inductive ndarray : Type :=
| Scal (x : R)
| Arr1 (v : list R)
| Arr2 (m : list (list R))
| ObjArr2 (m : list (list (option R))).

Fixpoint zip_with {A B C : Type} (f : A -> B -> C) (a : list A) (b : list B)
  : list C :=
  match a, b with
  | x :: a', y :: b' => f x y :: zip_with f a' b'
  | _, _ => []
  end.

(** numpy broadcasting of a binary operation along one axis: equal lengths
    are paired, a length of one is repeated, anything else is a
    [ValueError]. *)
Definition broadcast {A B C : Type} (f : A -> B -> C) (a : list A) (b : list B)
  : result (list C) :=
  if Nat.eqb (length a) (length b) then Ok (zip_with f a b)
  else match a, b with
       | _, [y] => Ok (map (fun x => f x y) a)
       | [x], _ => Ok (map (fun y => f x y) b)
       | _, _ => Raise ValueError
       end.

(** [np.divide(a, b)] on 1-d arrays. *)
Definition np_divide (a b : list R) : result (list R) := broadcast Rdiv a b.

(** [np.square(a)] *)
Definition np_square (a : list R) : list R := map (fun x => x ^ 2) a.

(** [np.sum(a)] *)
Definition np_sum (a : list R) : R := fold_right Rplus 0 a.

(** [np.dot(a, b)] on 1-d arrays. *)
Definition np_dot (a b : list R) : result R :=
  if Nat.eqb (length a) (length b)
  then Ok (np_sum (zip_with Rmult a b))
  else Raise ValueError.

(** [a.size] and [a.ndim] *)
Definition np_size (a : ndarray) : nat :=
  match a with
  | Scal _ => 1
  | Arr1 v => length v
  | Arr2 m => length (concat m)
  | ObjArr2 m => length (concat m)
  end.

Definition np_ndim (a : ndarray) : nat :=
  match a with
  | Scal _ => 0
  | Arr1 _ => 1
  | Arr2 _ | ObjArr2 _ => 2
  end.

Definition transpose {A : Type} (d : A) (m : list (list A)) : list (list A) :=
  match m with
  | [] => []
  | r :: _ => map (fun j => map (fun row => nth j row d) m) (seq 0 (length r))
  end.

(** [a.T] *)
Definition np_T (a : ndarray) : ndarray :=
  match a with
  | Scal x => Scal x
  | Arr1 v => Arr1 v
  | Arr2 m => Arr2 (transpose 0 m)
  | ObjArr2 m => ObjArr2 (transpose None m)
  end.

Definition dot (u v : list R) : R := np_sum (zip_with Rmult u v).

Definition mat_mul (a b : list (list R)) : list (list R) :=
  map (fun row => map (fun col => dot row col) (transpose 0 b)) a.

Definition cols_are {A : Type} (n : nat) (m : list (list A)) : bool :=
  forallb (fun row => Nat.eqb (length row) n) m.

(** [np.matmul(a, b)].  Scalars are refused; a 1-d operand is a row on the
    left and a column on the right; an object array reaches the
    multiplication of [None] by a float once the shapes agree. *)
Definition np_matmul (a b : ndarray) : result ndarray :=
  match a, b with
  | Scal _, _ | _, Scal _ => Raise ValueError
  | Arr1 u, Arr1 v =>
      if Nat.eqb (length u) (length v) then Ok (Scal (dot u v))
      else Raise ValueError
  | Arr1 u, Arr2 m =>
      if Nat.eqb (length u) (length m)
      then Ok (Arr1 (map (fun col => dot u col) (transpose 0 m)))
      else Raise ValueError
  | Arr2 m, Arr1 v =>
      if cols_are (length v) m then Ok (Arr1 (map (fun row => dot row v) m))
      else Raise ValueError
  | Arr2 m, Arr2 n =>
      if cols_are (length n) m then Ok (Arr2 (mat_mul m n))
      else Raise ValueError
  | ObjArr2 m, Arr1 v =>
      if cols_are (length v) m then Raise TypeError else Raise ValueError
  | ObjArr2 m, Arr2 n =>
      if cols_are (length n) m then Raise TypeError else Raise ValueError
  | ObjArr2 m, ObjArr2 n =>
      if cols_are (length n) m then Raise TypeError else Raise ValueError
  | Arr1 u, ObjArr2 n =>
      if Nat.eqb (length u) (length n) then Raise TypeError
      else Raise ValueError
  | Arr2 m, ObjArr2 n =>
      if cols_are (length n) m then Raise TypeError else Raise ValueError
  end.

(** [np.atleast_2d] followed by the row-wise concatenation of [np.vstack]:
    the operands become lists of rows, which must agree on the number of
    columns. *)
Definition rows_of (a : ndarray) : list (list (option R)) :=
  match a with
  | Scal x => [[Some x]]
  | Arr1 v => [map Some v]
  | Arr2 m => map (map Some) m
  | ObjArr2 m => m
  end.

Definition is_object (a : ndarray) : bool :=
  match a with
  | ObjArr2 _ => true
  | _ => false
  end.

Definition width {A : Type} (m : list (list A)) : nat :=
  match m with
  | [] => 0
  | r :: _ => length r
  end.

Definition float_of (c : option R) : R :=
  match c with
  | Some x => x
  | None => 0
  end.

(** [np.vstack((a, b))] *)
Definition np_vstack (a b : ndarray) : result ndarray :=
  let ra := rows_of a in
  let rb := rows_of b in
  if Nat.eqb (width ra) (width rb) then
    if is_object a || is_object b
    then Ok (ObjArr2 (ra ++ rb))
    else Ok (Arr2 (map (map float_of) (ra ++ rb)))
  else Raise ValueError.

Fixpoint sequence {A : Type} (l : list (result A)) : result (list A) :=
  match l with
  | [] => Ok []
  | r :: l' => x <- r ;; xs <- sequence l' ;; Ok (x :: xs)
  end.

Definition add_rows (a b : list (list R)) : result (list (list R)) :=
  rows <- broadcast (broadcast Rplus) a b ;; sequence rows.

(** [a + b] with broadcasting; [None + float] is a [TypeError]. *)
Definition np_add (a b : ndarray) : result ndarray :=
  match a, b with
  | ObjArr2 _, _ | _, ObjArr2 _ => Raise TypeError
  | Scal x, Scal y => Ok (Scal (x + y))
  | Scal x, Arr1 v => Ok (Arr1 (map (fun y => x + y) v))
  | Arr1 u, Scal y => Ok (Arr1 (map (fun x => x + y) u))
  | Scal x, Arr2 m => Ok (Arr2 (map (map (fun y => x + y)) m))
  | Arr2 m, Scal y => Ok (Arr2 (map (map (fun x => x + y)) m))
  | Arr1 u, Arr1 v => r <- broadcast Rplus u v ;; Ok (Arr1 r)
  | Arr1 u, Arr2 m => r <- add_rows [u] m ;; Ok (Arr2 r)
  | Arr2 m, Arr1 v => r <- add_rows m [v] ;; Ok (Arr2 r)
  | Arr2 m, Arr2 n => r <- add_rows m n ;; Ok (Arr2 r)
  end.

(** [lam * a] for a Python float [lam]. *)
Definition np_scale (lam : R) (a : ndarray) : result ndarray :=
  match a with
  | Scal x => Ok (Scal (lam * x))
  | Arr1 v => Ok (Arr1 (map (Rmult lam) v))
  | Arr2 m => Ok (Arr2 (map (map (Rmult lam)) m))
  | ObjArr2 _ => Raise TypeError
  end.

End Numpy.

(** ** Loss function: [loss] and [_loss] *)

Module Loss.
Import Numpy.

(** [_loss(state, sig_)]: a list is first turned into an array, which does
    not change its contents; [state[:4]] keeps at most four components. *)
Definition _loss (state sig_ : list R) : result R :=
  let state := firstn 4 state in
  q <- np_divide state sig_ ;;
  d <- np_dot q q ;;
  Ok (1 - exp (- d / 2)).

(** The default value of the parameter [alpha] of [loss]. *)
Definition default_alpha : list R := [1; 1; 0.5; 0.5].

Definition loss (state alpha : list R) : result R := _loss state alpha.

End Loss.

(** ** Kernel function: [kernel] *)

Module Kernel.
Import Numpy.

(** The second argument of [kernel] is treated differently when it is a
    Python list and when it is an array. *)
Inductive pyvec : Type :=
| PyList (l : list R)
| NpVec (v : list R).

Fixpoint collect {A : Type} (l : list (option A)) : option (list A) :=
  match l with
  | [] => Some []
  | None :: _ => None
  | Some x :: l' =>
      match collect l' with
      | Some xs => Some (x :: xs)
      | None => None
      end
  end.

(** One entry of the comprehension
    [(X[i]-X_dash[i])**2 if i != 2 else (np.sin((X[i]-X_dash[i])/2))**2];
    [None] when an index is out of range. *)
Definition squared_entry (X X_dash : list R) (i : nat) : option R :=
  match nth_error X i, nth_error X_dash i with
  | Some a, Some b =>
      Some (if Nat.eqb i 2 then (sin ((a - b) / 2)) ^ 2 else (a - b) ^ 2)
  | _, _ => None
  end.

(** The [try] block of [kernel].  A list [X_dash] has been wrapped as the
    one-row matrix [np.array([X_dash])], so that [X_dash[1]] is out of range
    and the block fails; [None] records that [squared_numerator] was left
    unbound by the [except] branch, which only prints. *)
Definition squared_numerator (X : list R) (X_dash : pyvec) : option (list R) :=
  match X_dash with
  | PyList _ => None
  | NpVec d => collect (map (squared_entry X d) (seq 0 5))
  end.

(** [kernel(X, X_dash, sigma)].  A list [X] becomes [np.array(X)], with the
    same components, so [X] is given by its components alone. *)
Definition kernel (X : list R) (X_dash : pyvec) (sigma : list R) : result R :=
  match squared_numerator X X_dash with
  | None => Raise UnboundLocalError
  | Some sq =>
      q <- np_divide sq (map (Rmult 2) (np_square sigma)) ;;
      Ok (exp (- np_sum q))
  end.

End Kernel.

(** ** Physics engine: class [CartPole] *)

Module Physics.

Record CartPole : Type := mkCartPole {
  cart_location : R;
  cart_velocity : R;
  pole_angle : R;
  pole_velocity : R;
  pole_length : R;
  pole_mass : R;
  mu_c : R;
  mu_p : R;
  sim_steps : nat;
  delta_time : R;
  max_force : R;
  gravity : R;
  cart_mass : R
}.

(** [CartPole.__init__] (with [visual=False]; the drawing attributes play no
    part in the dynamics). *)
Definition init : CartPole := {|
  cart_location := 0;
  cart_velocity := 0;
  pole_angle := PI;
  pole_velocity := 0;
  pole_length := 0.5;
  pole_mass := 0.5;
  mu_c := 0.001;
  mu_p := 0.001;
  sim_steps := 50;
  delta_time := 0.05;
  max_force := 20;
  gravity := 9.8;
  cart_mass := 0.5
|}.

(** Assignment of the four state attributes, the constants being kept. *)
Definition with_state (cp : CartPole) (x v th w : R) : CartPole := {|
  cart_location := x;
  cart_velocity := v;
  pole_angle := th;
  pole_velocity := w;
  pole_length := pole_length cp;
  pole_mass := pole_mass cp;
  mu_c := mu_c cp;
  mu_p := mu_p cp;
  sim_steps := sim_steps cp;
  delta_time := delta_time cp;
  max_force := max_force cp;
  gravity := gravity cp;
  cart_mass := cart_mass cp
|}.

(** [setState]: [state[0]] .. [state[3]] must exist. *)
Definition setState (cp : CartPole) (state : list R) : result CartPole :=
  match state with
  | x :: v :: th :: w :: _ => Ok (with_state cp x v th w)
  | _ => Raise IndexError
  end.

Definition getState (cp : CartPole) : list R :=
  [cart_location cp; cart_velocity cp; pole_angle cp; pole_velocity cp].

Definition reset (cp : CartPole) : CartPole := with_state cp 0 0 PI 0.

(** The quantities computed at the top of the integration loop of
    [performAction]: [m], [cart_accel], [pole_accel] and [dt]. *)
Definition m (cp : CartPole) : R :=
  let c := cos (pole_angle cp) in
  4 * (cart_mass cp + pole_mass cp) - 3 * pole_mass cp * c ^ 2.

Definition cart_accel (force : R) (cp : CartPole) : R :=
  let s := sin (pole_angle cp) in
  let c := cos (pole_angle cp) in
  (2 * (pole_length cp * pole_mass cp * pole_velocity cp ^ 2 * s
        + force - mu_c cp * cart_velocity cp)
   - 3 * pole_mass cp * gravity cp * c * s) / m cp.

Definition pole_accel (force : R) (cp : CartPole) : R :=
  let s := sin (pole_angle cp) in
  let c := cos (pole_angle cp) in
  (- 3 * c * (pole_length cp / 2 * pole_mass cp * pole_velocity cp ^ 2 * s
              + force - mu_c cp * cart_velocity cp)
   + 6 * (cart_mass cp + pole_mass cp) / (pole_mass cp * pole_length cp)
     * (pole_mass cp * gravity cp * s
        - 2 / pole_length cp * mu_p cp * pole_velocity cp)) / m cp.

Definition dt (cp : CartPole) : R := delta_time cp / INR (sim_steps cp).

(** One pass through the body of the integration loop: the two velocities
    are updated first, and the angle and the location then use the new
    velocities. *)
Definition euler_step (force : R) (cp : CartPole) : CartPole :=
  let cart_velocity' := cart_velocity cp + dt cp * cart_accel force cp in
  let pole_velocity' := pole_velocity cp + dt cp * pole_accel force cp in
  let pole_angle' := pole_angle cp + dt cp * pole_velocity' in
  let cart_location' := cart_location cp + dt cp * cart_velocity' in
  with_state cp cart_location' cart_velocity' pole_angle' pole_velocity'.

(** [for step in range(self.sim_steps)] *)
Fixpoint integrate (n : nat) (force : R) (cp : CartPole) : CartPole :=
  match n with
  | O => cp
  | S n' => integrate n' force (euler_step force cp)
  end.

(** [performAction(action)]: the force is saturated, then the equations of
    motion are integrated over [sim_steps] substeps. *)
Definition performAction (action : R) (cp : CartPole) : CartPole :=
  let force := max_force cp * tanh (action / max_force cp) in
  integrate (sim_steps cp) force cp.

(** The member function [remap_angle]. *)
Definition remap_angle (cp : CartPole) : CartPole :=
  with_state cp (cart_location cp) (cart_velocity cp)
             (Angle._remap_angle (pole_angle cp)) (pole_velocity cp).

(** The member function [loss] calls [_loss(self.getState())] with a single
    argument, while [_loss] has two required parameters: Python refuses the
    call. *)
Definition loss (cp : CartPole) : result R := Raise TypeError.

(** The member function [terminate] reads [self.state_range], an attribute
    that no method of the class ever sets. *)
Definition terminate (cp : CartPole) : result bool := Raise AttributeError.

(** The state reflected through the origin: the cart on the other side of
    the track, the pole leaning the other way, both velocities reversed. *)
Definition mirror (cp : CartPole) : CartPole :=
  with_state cp (- cart_location cp) (- cart_velocity cp)
             (- pole_angle cp) (- pole_velocity cp).

(** Two cart-poles have the same physical constants. *)
Definition same_constants (cp cp' : CartPole) : Prop :=
  pole_length cp' = pole_length cp /\ pole_mass cp' = pole_mass cp /\
  mu_c cp' = mu_c cp /\ mu_p cp' = mu_p cp /\
  sim_steps cp' = sim_steps cp /\ delta_time cp' = delta_time cp /\
  max_force cp' = max_force cp /\ gravity cp' = gravity cp /\
  cart_mass cp' = cart_mass cp.

(** The state after [k] substeps is described by four numbers; the
    constants are those of [init] throughout. *)
Definition at_state (x v th w : R) : CartPole := with_state init x v th w.

(** The invariant of the integration loop, after [k <= 50] substeps. *)
Definition falling (k : nat) (cp : CartPole) : Prop :=
  exists x v th w : R,
    cp = at_state x v th w /\
    3 <= th <= 3 + 0.0004 * INR k /\
    0 <= w <= 0.008 * INR k /\
    0 <= v <= 0.001 * INR k /\
    0 <= x /\
    ((1 <= k)%nat -> 0 < x /\ 0 < v /\ 3 < th /\ 0 < w).

End Physics.

(** ** Rollout: [move_cart] *)

Module Rollout.
Import Numpy Physics.

(** The row [[cp.cart_location, cp.cart_velocity, cp.pole_angle,
    cp.pole_velocity, action]]. *)
Definition row (cp : CartPole) (action : R) : list R :=
  [cart_location cp; cart_velocity cp; pole_angle cp; pole_velocity cp; action].

(** One pass through the loop [for _ in range(steps)] of [move_cart].  The
    local [x_history] is [None] as long as it is unbound: the first
    [np.vstack] then fails and the [except] branch starts the history with
    [initial_x] and the current row. *)
Definition rollout_step (remap : bool) (initial_x : list R) (action : R)
    (st : CartPole * option (list (list R)))
  : CartPole * option (list (list R)) :=
  let '(cp, x_history) := st in
  let cp := performAction action cp in
  let cp := if remap then remap_angle cp else cp in
  let x_history :=
    match x_history with
    | Some h => Some (h ++ [row cp action])
    | None => Some [initial_x; row cp action]
    end in
  (cp, x_history).

Fixpoint rollout_loop (n : nat) (remap : bool) (initial_x : list R)
    (action : R) (st : CartPole * option (list (list R)))
  : CartPole * option (list (list R)) :=
  match n with
  | O => st
  | S n' =>
      rollout_loop n' remap initial_x action
                   (rollout_step remap initial_x action st)
  end.

(** [move_cart(initial_x, steps, remap_angle=remap)] with [visual] and
    [noisy_dynamics] left at [False].  Plotting ([display_plots]) produces
    no value and is not part of the model.  [range(steps)] runs
    [Z.to_nat steps] times. *)
Definition move_cart (initial_x : list R) (steps : Z) (remap : bool)
  : result ndarray :=
  if Z.eqb steps 4 then Raise AssertionError
  else
    match initial_x with
    | [x; v; th; w; action] =>
        let cp := with_state init x v th w in
        let '(_, x_history) :=
          rollout_loop (Z.to_nat steps) remap initial_x action (cp, None) in
        match x_history with
        | None => Raise UnboundLocalError
        | Some h =>
            if Nat.eqb (length h) 5
            then Ok (Arr2 h)
            else Ok (Arr1 (last h []))
        end
    | _ => Raise ValueError
    end.

(** The state transformer applied once per step of the rollout. *)
Definition advance (remap : bool) (action : R) (cp : CartPole) : CartPole :=
  let cp := performAction action cp in
  if remap then remap_angle cp else cp.

(** The rows appended to the history by [n] further steps. *)
Definition later_rows (remap : bool) (action : R) (cp : CartPole) (n : nat)
  : list (list R) :=
  map (fun k => row (Nat.iter (S k) (advance remap action) cp) action) (seq 0 n).

End Rollout.

(** ** Kernel regression: [generate_K] and [train_alpha] *)

Module Regression.
Import Numpy Kernel.

(** [X[M]] for a 2-d array [X] and a sequence of row indices [M]. *)
Definition take_rows (X : list (list R)) (M : list nat)
  : result (list (list R)) :=
  sequence (map (fun i => match nth_error X i with
                          | Some r => Ok r
                          | None => Raise IndexError
                          end) M).

(** The idiom
    [try: acc = np.vstack((acc, row))  except: acc = row]
    with [acc] possibly unbound ([None]): any failure of the [try] block
    makes [acc] the row itself. *)
Definition accumulate (acc : option ndarray) (row : ndarray) : ndarray :=
  match acc with
  | None => row
  | Some a =>
      match np_vstack a row with
      | Ok r => r
      | Raise _ => row
      end
  end.

Section WithKernel.

Variable kernel : list R -> pyvec -> list R -> result R.

(** The loop [for x_location in X] of [generate_K]. *)
Fixpoint generate_K_loop (rows : list (list R)) (X : list (list R))
    (M : list nat) (sigma : list R) (KnM : option ndarray)
  : result (option ndarray) :=
  match rows with
  | [] => Ok KnM
  | x_location :: rows' =>
      basis <- take_rows X M ;;
      K_row <- sequence (map (fun RBF_x => kernel x_location (NpVec RBF_x) sigma)
                             basis) ;;
      generate_K_loop rows' X M sigma (Some (accumulate KnM (Arr1 K_row)))
  end.

(** [generate_K(X, M, sigma, kernel)] *)
Definition generate_K (X : list (list R)) (M : list nat) (sigma : list R)
  : result ndarray :=
  KnM <- generate_K_loop X X M sigma None ;;
  match KnM with
  | Some a => Ok a
  | None => Raise UnboundLocalError
  end.

(** [np.linalg.lstsq(a, b)[0]].  The numerical solver is the parameter
    [solve]; numpy first insists on a 2-d [a] and on as many rows in [b]. *)
Variable solve : list (list R) -> list (list R) -> list (list R).

Definition lstsq (a b : ndarray) : result ndarray :=
  match a, b with
  | Arr2 A, Arr2 B =>
      if Nat.eqb (length A) (length B) then Ok (Arr2 (solve A B))
      else Raise LinAlgError
  | Arr2 A, Arr1 v =>
      if Nat.eqb (length A) (length v)
      then Ok (Arr1 (concat (solve A (map (fun x => [x]) v))))
      else Raise LinAlgError
  | _, _ => Raise LinAlgError
  end.

(** [train_alpha(x_train, y_train, no_RBC, sigma, n, train_proportion,
    kernel, lam)].  [M_vals] stands for the [no_RBC] indices drawn by
    [np.random.randint(0, high=n*train_proportion, size=no_RBC)]. *)
Definition train_alpha (x_train y_train : list (list R)) (M_vals : list nat)
    (sigma : list R) (lam : R) : result (ndarray * list (list R)) :=
  X_i_vals <- take_rows x_train M_vals ;;
  KnM_ <- generate_K x_train M_vals sigma ;;
  KMM_ <- generate_K X_i_vals (seq 0 (length M_vals)) sigma ;;
  gram <- np_matmul (np_T KnM_) KnM_ ;;
  reg <- np_scale lam KMM_ ;;
  lhs <- np_add gram reg ;;
  rhs <- np_matmul (np_T KnM_) (Arr2 y_train) ;;
  alpha <- lstsq lhs rhs ;;
  Ok (alpha, X_i_vals).

End WithKernel.

End Regression.

(** ** The regularised normal equations, in the words of the specification *)

Module NormalEquations.
Import Numpy.

(** The kernel of two 5-vectors as a number:
    [exp(- sum_{i=0..4} d_i^2 / (2*sigma_i^2))] with [d_2] the sine of half
    the difference and [d_i] the difference otherwise. *)
Definition distance (x x' : list R) (i : nat) : R :=
  if Nat.eqb i 2 then sin ((nth i x 0 - nth i x' 0) / 2)
  else nth i x 0 - nth i x' 0.

Definition kernel_value (x x' sigma : list R) : R :=
  exp (- np_sum (map (fun i => distance x x' i ^ 2 / (2 * nth i sigma 0 ^ 2))
                     (seq 0 5))).

(** The rows of [X] selected by the indices [M]. *)
Definition rows_at (X : list (list R)) (M : list nat) : list (list R) :=
  map (fun i => nth i X []) M.

(** One row of a kernel matrix: the point [x] against the points
    [basis]. *)
Definition kernel_row (sigma : list R) (basis : list (list R)) (x : list R)
  : list R :=
  map (fun c => kernel_value x c sigma) basis.

(** The kernel matrix of the points [xs] against the points [cs]. *)
Definition kernel_matrix (xs cs : list (list R)) (sigma : list R)
  : list (list R) :=
  map (fun x => map (fun c => kernel_value x c sigma) cs) xs.

Definition mat_add (a b : list (list R)) : list (list R) :=
  zip_with (zip_with Rplus) a b.

Definition mat_scale (lam : R) (a : list (list R)) : list (list R) :=
  map (map (Rmult lam)) a.

(** Left- and right-hand sides of
    [(K_nm^T K_nm + lam * K_mm) alpha = K_nm^T Y_train]. *)
Definition normal_lhs (K_nm K_mm : list (list R)) (lam : R) : list (list R) :=
  mat_add (mat_mul (transpose 0 K_nm) K_nm) (mat_scale lam K_mm).

Definition normal_rhs (K_nm Y : list (list R)) : list (list R) :=
  mat_mul (transpose 0 K_nm) Y.

(** Sum of the squares of the entries of [A X - B]. *)
Definition residual (A B X : list (list R)) : R :=
  np_sum (map (fun x => x ^ 2)
              (concat (zip_with (zip_with Rminus) (mat_mul A X) B))).

(** [X] is a least-squares solution of [A X = B]. *)
Definition least_squares (A B X : list (list R)) : Prop :=
  forall X' : list (list R), residual A B X <= residual A B X'.

End NormalEquations.

(** ** Prediction: [predict], over a store of Python objects *)

Module Predict.
Import Numpy Kernel.

(** What a cell of the store holds: an array, or the two-element list
    [[None, None]] that [predict] starts from. *)
Inductive pyobj : Type :=
| NoneList
| Nd (a : ndarray).

Definition loc : Type := nat.
Definition store : Type := list pyobj.

(** Computations that read and extend the store and may raise. *)
Definition M (A : Type) : Type := store -> result A * store.

Definition ret {A : Type} (a : A) : M A := fun h => (Ok a, h).

Definition throw {A : Type} (e : exn) : M A := fun h => (Raise e, h).

Definition bindM {A B : Type} (c : M A) (k : A -> M B) : M B :=
  fun h => match c h with
           | (Ok a, h') => k a h'
           | (Raise e, h') => (Raise e, h')
           end.

Definition lift {A : Type} (r : result A) : M A := fun h => (r, h).

(** Reading the object an argument or a local variable refers to. *)
Definition load (l : loc) : M pyobj :=
  fun h => match nth_error h l with
           | Some o => (Ok o, h)
           | None => (Raise ValueError, h)
           end.

(** Every numpy operation of [predict] returns a new object. *)
Definition alloc (o : pyobj) : M loc :=
  fun h => (Ok (length h), h ++ [o]).

(** In-place assignment [a[...] = o].  [predict] never performs one. *)
Definition assign (l : loc) (o : pyobj) : M unit :=
  fun h => match nth_error h l with
           | Some _ => (Ok tt, firstn l h ++ o :: skipn (S l) h)
           | None => (Raise ValueError, h)
           end.

(** The cell [l] of the store [h] holds the object [o]. *)
Definition holds (h : store) (l : loc) (o : pyobj) : Prop :=
  nth_error h l = Some o.


(** The cells of a single query [x] and of the bandwidths [s]. *)
Definition query_inputs (x_test sigma : loc) (x s : list R) (h : store)
  : Prop :=
  holds h x_test (Nd (Numpy.Arr1 x)) /\ holds h sigma (Nd (Numpy.Arr1 s)).

(** A computation grows the store when the store it leaves is the one it
    was given followed by new cells. *)
Definition grows {A : Type} (c : M A) : Prop :=
  forall h : store, exists fresh : store, snd (c h) = h ++ fresh.

Notation "x <~ c ; k" := (bindM c (fun x => k))
  (at level 61, c at next level, right associativity).

(** The arguments of [predict] are arrays of floats; anything else in the
    cell makes the arithmetic fail. *)
Definition load_floats (l : loc) : M ndarray :=
  o <~ load l ;
  match o with
  | NoneList | Nd (ObjArr2 _) => throw TypeError
  | Nd a => ret a
  end.

(** The bandwidths, as a 1-d array (a scalar broadcasts like an array of
    length one). *)
Definition load_sigma (l : loc) : M (list R) :=
  a <~ load_floats l ;
  match a with
  | Scal s => ret [s]
  | Arr1 v => ret v
  | _ => throw ValueError
  end.

(** [for X_i in X_i_vals]: the items of the iteration. *)
Definition items (a : ndarray) : result (list ndarray) :=
  match a with
  | Scal _ => Raise TypeError
  | Arr1 v => Ok (map Scal v)
  | Arr2 m => Ok (map Arr1 m)
  | ObjArr2 _ => Raise TypeError
  end.

(** [np.vstack((KnM_test, KnM_test_row))], where [KnM_test] may still be
    the list [[None, None]], which [np.atleast_2d] turns into a one-row
    object array. *)
Definition vstack_onto (acc : pyobj) (row : ndarray) : result ndarray :=
  match acc with
  | NoneList => np_vstack (ObjArr2 [[None; None]]) row
  | Nd a => np_vstack a row
  end.

Section WithKernel.

Variable kernel : list R -> pyvec -> list R -> result R.

(** [kernel(X_i, x, sigma=sigma)] for an item [X_i] of the iteration: a
    scalar item cannot be indexed. *)
Definition kernel_item (X_i : ndarray) (x : list R) (sigma : list R)
  : result R :=
  match X_i with
  | Arr1 v => kernel v (NpVec x) sigma
  | _ => Raise UnboundLocalError
  end.

(** The local variables that the loop of [predict] rebinds: [x_test],
    [KnM_test] and [KnM_test_row] (unbound at first). *)
Definition locals : Type := (loc * loc * option loc)%type.

(** The [if]/[elif] of the loop body, which binds [KnM_test_row]. *)
Definition bind_row (sigma : loc) (X_i : ndarray) (vars : locals) : M locals :=
  let '(x_test, KnM_test, KnM_test_row) := vars in
  xt <~ load_floats x_test ;
  if Nat.ltb 4 (np_size xt) then
    if Nat.eqb (np_size xt mod 5) 0 then
      match xt with
      | Arr1 v =>
          sg <~ load_sigma sigma ;
          k <~ lift (kernel_item X_i v sg) ;
          r <~ alloc (Nd (Scal k)) ;
          ret (x_test, KnM_test, Some r)
      | Arr2 rows =>
          sg <~ load_sigma sigma ;
          ks <~ lift (sequence (map (fun x_test_ => kernel_item X_i x_test_ sg)
                                    rows)) ;
          r <~ alloc (Nd (Arr1 ks)) ;
          ret (x_test, KnM_test, Some r)
      | _ => throw TypeError
      end
    else throw AssertionError
  else if Nat.eqb (np_size xt) 4 then
    x_test <~ match xt with
              | Arr2 (first :: _) => alloc (Nd (Arr1 first))
              | _ => ret x_test
              end ;
    xt <~ load_floats x_test ;
    match xt with
    | Arr1 v =>
        sg <~ load_sigma sigma ;
        k <~ lift (kernel_item X_i v sg) ;
        r <~ alloc (Nd (Scal k)) ;
        ret (x_test, KnM_test, Some r)
    | _ => throw TypeError
    end
  else ret vars.

(** The [try]/[except] of the loop body. *)
Definition stack_row (vars : locals) : M locals :=
  let '(x_test, KnM_test, KnM_test_row) := vars in
  match KnM_test_row with
  | None => throw UnboundLocalError
  | Some r =>
      acc <~ load KnM_test ;
      row <~ load_floats r ;
      match vstack_onto acc row with
      | Ok stacked =>
          l <~ alloc (Nd stacked) ;
          ret (x_test, l, KnM_test_row)
      | Raise _ => ret (x_test, r, KnM_test_row)
      end
  end.

Fixpoint predict_loop (its : list ndarray) (sigma : loc) (vars : locals)
  : M locals :=
  match its with
  | [] => ret vars
  | X_i :: its' =>
      vars <~ bind_row sigma X_i vars ;
      vars <~ stack_row vars ;
      predict_loop its' sigma vars
  end.

(** [predict(x_test, alpha, X_i_vals, sigma, kernel)]: the arguments are
    references into the store, and so is the result. *)
Definition predict (x_test alpha X_i_vals sigma : loc) : M loc :=
  KnM_test <~ alloc NoneList ;
  basis <~ load_floats X_i_vals ;
  its <~ lift (items basis) ;
  vars <~ predict_loop its sigma (x_test, KnM_test, None) ;
  let '(_, KnM_test, _) := vars in
  acc <~ load KnM_test ;
  match acc with
  | NoneList => throw AttributeError
  | Nd a =>
      al <~ load_floats alpha ;
      predictions <~ lift (np_matmul (np_T a) al) ;
      alloc (Nd predictions)
  end.

End WithKernel.

(** A store with one query, two rows of weights, two basis points and the
    bandwidths, at the locations 0 to 3. *)
Definition h0 : store :=
  [ Nd (Arr1 [0; 0; 0; 0; 0]);
    Nd (Arr2 [[1; 2; 3; 4]; [5; 6; 7; 8]]);
    Nd (Arr2 [[0; 0; 0; 0; 0]; [1; 1; 1; 1; 1]]);
    Nd (Arr1 [1; 1; 1; 1; 1]) ].

(** The same store with a batch of two queries in place of the single one. *)
Definition h0_batch : store :=
  Nd (Arr2 [[0; 0; 0; 0; 0]; [1; 1; 1; 1; 1]]) :: tl h0.

End Predict.

(** ** Error measure: [display_RMSE] *)

Module Evaluation.
Import Numpy.

(** [a[:, j]] for a 2-d array given by its rows. *)
Definition column (a : list (list R)) (j : nat) : result (list R) :=
  sequence (map (fun r => match nth_error r j with
                          | Some x => Ok x
                          | None => Raise IndexError
                          end) a).

(** [np.mean(v)] of a 1-d array.  (On an empty array numpy answers [nan];
    the statements below are about arrays with at least one entry.) *)
Definition np_mean (v : list R) : R := np_sum v / INR (length v).

(** One entry of the list built by [display_RMSE]:
    [np.sqrt(np.mean((predictions[:,j]-targets[:,j])**2))]. *)
Definition rmse_column (predictions targets : list (list R)) (j : nat)
  : result R :=
  p <- column predictions j ;;
  t <- column targets j ;;
  d <- broadcast Rminus p t ;;
  Ok (sqrt (np_mean (np_square d))).

(** [display_RMSE(predictions, y_test)] *)
Definition display_RMSE (predictions y_test : list (list R))
  : result (list R) :=
  let targets := y_test in
  sequence (map (rmse_column predictions targets) (seq 0 4)).

End Evaluation.

(** ** Loss along a trajectory: [project_loss] *)

Module ProjectLoss.
Import Numpy Physics Rollout.

(** The loop [for _ in range(steps)] of [project_loss]: act, remap the
    angle, and append the loss and the row. *)
Fixpoint project_loss_loop (n : nat) (action : R) (cp : CartPole)
    (loss_history : list R) (y_history : list (list R))
  : result (list R * list (list R)) :=
  match n with
  | O => Ok (loss_history, y_history)
  | S n' =>
      let cp := remap_angle (performAction action cp) in
      let y_ := row cp action in
      loss_ <- Loss.loss (removelast y_) Loss.default_alpha ;;
      project_loss_loop n' action cp (loss_history ++ [loss_])
                        (y_history ++ [y_])
  end.

(** [project_loss(initial_x, steps)]: the pair of [np.array(loss_history)]
    and [y_history]. *)
Definition project_loss (initial_x : list R) (steps : Z)
  : result (list R * list (list R)) :=
  match initial_x with
  | [x; v; th; w; action] =>
      let cp := with_state init x v th w in
      loss_0 <- Loss.loss (removelast initial_x) Loss.default_alpha ;;
      project_loss_loop (Z.to_nat steps) action cp [loss_0] [initial_x]
  | _ => Raise ValueError
  end.

(** The loss of the state of a cart-pole, with the default scales. *)
Definition state_loss (cp : CartPole) : R :=
  1 - exp (- ((cart_location cp / 1) ^ 2 + (cart_velocity cp / 1) ^ 2
              + (pole_angle cp / 0.5) ^ 2 + (pole_velocity cp / 0.5) ^ 2) / 2).

End ProjectLoss.

(** ** Policies: [policy_exponent] and [non_linear_policy] *)

Module Policy.
Import Numpy.

(** [if X.size == 5: X = X[:-1]] *)
Definition drop_action (X : list R) : list R :=
  if Nat.eqb (length X) 5 then removelast X else X.

Fixpoint chunks4 (v : list R) : list (list R) :=
  match v with
  | a :: b :: c :: d :: rest => [a; b; c; d] :: chunks4 rest
  | _ => []
  end.

(** [np.reshape(W, (-1, 4))] *)
Definition reshape4 (W : ndarray) : result ndarray :=
  match W with
  | ObjArr2 _ => Raise TypeError
  | Scal _ => Raise ValueError
  | Arr1 v =>
      if Nat.eqb (length v mod 4) 0 then Ok (Arr2 (chunks4 v))
      else Raise ValueError
  | Arr2 m =>
      if Nat.eqb (length (concat m) mod 4) 0 then Ok (Arr2 (chunks4 (concat m)))
      else Raise ValueError
  end.

(** [np.matmul(np.matmul(diff_, W), diff_.T)] for a 1-d [diff_], whose
    transpose is itself. *)
Definition quadratic_form (diff_ : list R) (W : ndarray) : result ndarray :=
  left <- np_matmul (Arr1 diff_) W ;;
  np_matmul left (np_T (Arr1 diff_)).

(** [policy_exponent(X, X_i, W)].  When the products succeed, the second one
    has 1-d operands or none, so that [power_] is a scalar. *)
Definition policy_exponent (X X_i : list R) (W : ndarray) : result R :=
  let X := drop_action X in
  let X_i := drop_action X_i in
  diff_ <- broadcast Rminus X X_i ;;
  q <- match quadratic_form diff_ W with
       | Ok q => Ok q
       | Raise _ => W <- reshape4 W ;; quadratic_form diff_ W
       end ;;
  match q with
  | Scal power => Ok (exp (- 0.5 * power))
  | _ => Raise TypeError
  end.

(** [non_linear_policy(w_i, X, X_i_vals, W)]: the sum over
    [range(w_i.size)] of [w_i[i] * policy_exponent(X, X_i_vals[i], W)]. *)
Definition non_linear_policy (w_i X : list R) (X_i_vals : list (list R))
    (W : ndarray) : result R :=
  terms <- sequence
             (map (fun i =>
                     match nth_error X_i_vals i with
                     | None => Raise IndexError
                     | Some X_i =>
                         e <- policy_exponent X X_i W ;;
                         Ok (nth i w_i 0 * e)
                     end)
                  (seq 0 (length w_i))) ;;
  Ok (np_sum terms).

(** The quadratic form [d W d^T] of a 4-vector and a 4 x 4 matrix. *)
Definition form4 (d : list R) (W : list (list R)) : R :=
  dot (map (fun col => dot d col) (transpose 0 W)) d.

End Policy.

(** ** Policy evaluation: [loss_after_steps] *)

Module PolicyLoss.
Import Numpy Rollout.








End PolicyLoss.

(** ** Model against physics: [project_x_using_model] *)

Module Projection.
Import Numpy Physics Rollout.

(** Truth value of a Python float, and the builtin [all] on a sequence of
    floats. *)
Definition truthy (x : R) : bool := if Req_dec_T x 0 then false else true.

Definition py_all (v : list R) : bool := forallb truthy v.

(** The local variables of [project_x_using_model] that the loop changes:
    the cart-pole, [pred_] ([None] at first) and the two histories (unbound
    at first). *)
Record locals : Type := mkLocals {
  cp : CartPole;
  pred_ : option ndarray;
  prediction_history : option ndarray;
  y_history : option ndarray
}.

Section WithModel.

(** [model(x, kwargs['alpha'], kwargs['X_i_vals'], kwargs['sigma'])] as a
    function of [x]. *)
Variable model : ndarray -> result ndarray.

(** The [except] branch: the histories are started from the current
    [x_]. *)
Definition restart (initial_x x_ y_ : list R) (c : CartPole) : result locals :=
  if Bool.eqb (py_all x_) (py_all initial_x) then
    delta <- model (Arr1 x_) ;;
    p <- np_add (Arr1 x_) delta ;;
    ph <- np_vstack (Arr1 x_) p ;;
    yh <- np_vstack (Arr1 x_) (Arr1 y_) ;;
    Ok (mkLocals c (Some p) (Some ph) (Some yh))
  else Raise AssertionError.

(** One pass through the loop [for step in range(steps)]. *)
Definition project_step (remap compound : bool) (initial_x : list R)
    (action : R) (st : locals) : result locals :=
  let x_ := row (cp st) action in
  let c := performAction action (cp st) in
  let c := if remap then remap_angle c else c in
  let y_ := row c action in
  p <- match pred_ st with
       | None => Ok None
       | Some p =>
           if compound
           then delta <- model p ;; r <- np_add p delta ;; Ok (Some r)
           else delta <- model (Arr1 x_) ;;
                r <- np_add (Arr1 x_) delta ;; Ok (Some r)
       end ;;
  match prediction_history st, p, y_history st with
  | Some ph, Some p', Some yh =>
      match np_vstack ph p', np_vstack yh (Arr1 y_) with
      | Ok ph', Ok yh' => Ok (mkLocals c (Some p') (Some ph') (Some yh'))
      | _, _ => restart initial_x x_ y_ c
      end
  | _, _, _ => restart initial_x x_ y_ c
  end.

Fixpoint project_loop (n : nat) (remap compound : bool) (initial_x : list R)
    (action : R) (st : locals) : result locals :=
  match n with
  | O => Ok st
  | S n' =>
      st' <- project_step remap compound initial_x action st ;;
      project_loop n' remap compound initial_x action st'
  end.

(** [project_x_using_model(initial_x, model, steps, remap_angle,
    compound_predictions, **kwargs)]; the [print] of each pass is left
    out. *)
Definition project_x_using_model (initial_x : list R) (steps : Z)
    (remap compound : bool) : result (ndarray * ndarray) :=
  match initial_x with
  | [x; v; th; w; action] =>
      let c := with_state init x v th w in
      st <- project_loop (Z.to_nat steps) remap compound initial_x action
                         (mkLocals c None None None) ;;
      match prediction_history st, y_history st with
      | Some ph, Some yh => Ok (ph, yh)
      | _, _ => Raise UnboundLocalError
      end
  | _ => Raise ValueError
  end.

End WithModel.

(** The predicted rows when the model adds [delta x] to its input [x]: in
    compound mode each prediction starts from the previous one, otherwise
    from the state the physics has reached. *)
Fixpoint predictions (delta : list R -> list R) (n : nat)
    (remap compound : bool) (action : R) (c : CartPole) (p : list R)
  : list (list R) :=
  match n with
  | O => []
  | S n' =>
      let start := if compound then p else row c action in
      let p' := zip_with Rplus start (delta start) in
      p' :: predictions delta n' remap compound action
                        (advance remap action c) p'
  end.

(** Two particular answers of a model: no change at all, and the change that
    one step of the physics makes. *)
Definition zero_delta : list R := [0; 0; 0; 0; 0].

Definition physics_delta (remap : bool) (x : list R) : list R :=
  match x with
  | [x0; v; th; w; action] =>
      zip_with Rminus
               (row (advance remap action (with_state init x0 v th w)) action)
               x
  | _ => zero_delta
  end.

End Projection.

(** ** Training data: [generate_data] *)

Module DataGeneration.
Import Numpy Physics Rollout.

(** One sample
    [[normal(), uniform(-10,10), uniform(-pi,pi), uniform(-15,15),
      uniform(-20,20)]] of the random generator, and the array built from
    it. *)
Definition sample : Type := (R * R * R * R * R)%type.

Definition to_array (smp : sample) : list R :=
  let '(a, b, c, d, e) := smp in [a; b; c; d; e].

(** [a - b] with broadcasting, for float arrays. *)
Definition sub_rows (a b : list (list R)) : result (list (list R)) :=
  rows <- broadcast (broadcast Rminus) a b ;; sequence rows.

Definition np_sub (a b : ndarray) : result ndarray :=
  match a, b with
  | ObjArr2 _, _ | _, ObjArr2 _ => Raise TypeError
  | Scal x, Scal y => Ok (Scal (x - y))
  | Scal x, Arr1 v => Ok (Arr1 (map (fun y => x - y) v))
  | Arr1 u, Scal y => Ok (Arr1 (map (fun x => x - y) u))
  | Scal x, Arr2 m => Ok (Arr2 (map (map (fun y => x - y)) m))
  | Arr2 m, Scal y => Ok (Arr2 (map (map (fun x => x - y)) m))
  | Arr1 u, Arr1 v => r <- broadcast Rminus u v ;; Ok (Arr1 r)
  | Arr1 u, Arr2 m => r <- sub_rows [u] m ;; Ok (Arr2 r)
  | Arr2 m, Arr1 v => r <- sub_rows m [v] ;; Ok (Arr2 r)
  | Arr2 m, Arr2 n => r <- sub_rows m n ;; Ok (Arr2 r)
  end.

(** [int(r)] for a float: truncation towards zero. *)
Definition py_int (r : R) : Z :=
  if Rle_dec 0 r then Int_part r else (- Int_part (- r))%Z.

(** The position that a slice bound [k] denotes in a sequence of length
    [len]: negative bounds count from the end. *)
Definition bound (k : Z) (len : nat) : nat :=
  if (k <? 0)%Z then Z.to_nat (Z.of_nat len + k) else Z.to_nat k.

(** [l[:k]] and [l[k:]] *)
Definition slice_to {A : Type} (k : Z) (l : list A) : list A :=
  firstn (bound k (length l)) l.

Definition slice_from {A : Type} (k : Z) (l : list A) : list A :=
  skipn (bound k (length l)) l.

(** [a[:k]] and [a[k:]] on an array: along its first axis. *)
Definition np_slice_to (k : Z) (a : ndarray) : result ndarray :=
  match a with
  | Scal _ => Raise IndexError
  | Arr1 v => Ok (Arr1 (slice_to k v))
  | Arr2 m => Ok (Arr2 (slice_to k m))
  | ObjArr2 m => Ok (ObjArr2 (slice_to k m))
  end.

Definition np_slice_from (k : Z) (a : ndarray) : result ndarray :=
  match a with
  | Scal _ => Raise IndexError
  | Arr1 v => Ok (Arr1 (slice_from k v))
  | Arr2 m => Ok (Arr2 (slice_from k m))
  | ObjArr2 m => Ok (ObjArr2 (slice_from k m))
  end.

(** The locals of the loop of [generate_data]: how many samples have been
    drawn, and the arrays [x] and [y] (unbound at first). *)
Definition gen_state : Type := (nat * option ndarray * option ndarray)%type.

Section WithDraws.

(** [draw i] is the [i]-th sample that the random generator hands out. *)
Variable draw : nat -> sample.

(** The [except] branch: a new sample replaces whatever [x] and [y] were. *)
Definition start_over (steps : Z) (remap : bool) (drawn : nat)
  : result gen_state :=
  let x := to_array (draw drawn) in
  moved <- move_cart x steps remap ;;
  y <- np_sub moved (Arr1 x) ;;
  Ok (S drawn, Some (Arr1 x), Some y).

(** One pass through [for i in range(n)]. *)
Definition generate_step (steps : Z) (remap : bool) (st : gen_state)
  : result gen_state :=
  let '(drawn, x, y) := st in
  let x_ := to_array (draw drawn) in
  let drawn := S drawn in
  match move_cart x_ steps remap with
  | Raise _ => start_over steps remap drawn
  | Ok moved =>
      match np_sub moved (Arr1 x_), x, y with
      | Ok y_, Some xa, Some ya =>
          match np_vstack xa (Arr1 x_), np_vstack ya y_ with
          | Ok x', Ok y' => Ok (drawn, Some x', Some y')
          | _, _ => start_over steps remap drawn
          end
      | _, _, _ => start_over steps remap drawn
      end
  end.

Fixpoint generate_loop (n : nat) (steps : Z) (remap : bool) (st : gen_state)
  : result gen_state :=
  match n with
  | O => Ok st
  | S n' =>
      st' <- generate_step steps remap st ;;
      generate_loop n' steps remap st'
  end.

(** [generate_data(n, steps, train_proportion, remap_angle)]: the four
    arrays [x_train, y_train, x_test, y_test]. *)
Definition generate_data (n steps : Z) (train_proportion : R) (remap : bool)
  : result (ndarray * ndarray * ndarray * ndarray) :=
  st <- generate_loop (Z.to_nat n) steps remap (0%nat, None, None) ;;
  let '(_, x, y) := st in
  match x, y with
  | Some x, Some y =>
      let k := py_int (IZR n * train_proportion) in
      x_train <- np_slice_to k x ;;
      y_train <- np_slice_to k y ;;
      x_test <- np_slice_from k x ;;
      y_test <- np_slice_from k y ;;
      Ok (x_train, y_train, x_test, y_test)
  | _, _ => Raise UnboundLocalError
  end.

End WithDraws.

(** What [move_cart] makes of a sample, and the change it records. *)
Definition moved (steps : Z) (remap : bool) (x : list R) : list R :=
  match x with
  | [x0; v; th; w; action] =>
      row (Nat.iter (Z.to_nat steps) (advance remap action)
                    (with_state init x0 v th w)) action
  | _ => x
  end.

Definition change (steps : Z) (remap : bool) (x : list R) : list R :=
  zip_with Rminus (moved steps remap x) x.

(** The samples that end up in the data set after [n] passes, and the array
    that holds a given list of rows: one row alone is a 1-d array. *)
Definition samples (draw : nat -> sample) (n : nat) : list (list R) :=
  map (fun i => to_array (draw i)) (seq 1 n).

Definition pack (rows : list (list R)) : ndarray :=
  match rows with
  | [r] => Arr1 r
  | _ => Arr2 rows
  end.

End DataGeneration.

(** ** Facts about the angle normaliser *)

Module AngleFacts.
Import Angle.

Lemma two_PI_pos : 0 < 2 * PI.
Proof. pose proof PI_RGT_0; lra. Qed.

(** The first loop adds [2pi] a natural number of times, stops at the first
    value that is not below [-pi], and so never overshoots [pi]. *)
Lemma raise_loop_spec (fuel : nat) :
  forall theta r, raise_loop fuel theta = Some r ->
    exists k : nat,
      r = theta + 2 * PI * INR k /\ - PI <= r /\
      ((k = 0)%nat \/ (theta < - PI /\ r < PI)).
Proof.
  induction fuel as [|fuel IH]; intros theta r; simpl; [discriminate|].
  destruct (Rlt_dec theta (- PI)) as [Hlt|Hge].
  - intros H. destruct (IH _ _ H) as (k & Hr & Hlo & Hk).
    exists (S k). rewrite S_INR. split; [lra|]. split; [exact Hlo|].
    right. split; [exact Hlt|]. destruct Hk as [->|[_ Hk]]; [|exact Hk].
    simpl in Hr. lra.
  - intros [= <-]. exists 0%nat. simpl. split; [lra|]. split; [lra|now left].
Qed.

Lemma lower_loop_spec (fuel : nat) :
  forall theta r, lower_loop fuel theta = Some r ->
    exists k : nat,
      r = theta - 2 * PI * INR k /\ r <= PI /\
      ((k = 0)%nat \/ (PI < theta /\ - PI < r)).
Proof.
  induction fuel as [|fuel IH]; intros theta r; simpl; [discriminate|].
  destruct (Rgt_dec theta PI) as [Hgt|Hle].
  - intros H. destruct (IH _ _ H) as (k & Hr & Hhi & Hk).
    exists (S k). rewrite S_INR. split; [lra|]. split; [exact Hhi|].
    unfold Rgt in Hgt.
    right. split; [exact Hgt|]. destruct Hk as [->|[_ Hk]]; [|exact Hk].
    simpl in Hr. lra.
  - intros [= <-]. exists 0%nat. simpl. unfold Rgt in Hle.
    split; [lra|]. split; [lra|now left].
Qed.

(** Termination of the loops: [n] iterations suffice as soon as [n] turns of
    [2pi] bring the angle to the right side of the bound. *)
Lemma raise_loop_total (n : nat) :
  forall theta, - PI <= theta + 2 * PI * INR n ->
    exists r, raise_loop (S n) theta = Some r.
Proof.
  induction n as [|n IH]; intros theta Hn.
  - simpl in *. destruct (Rlt_dec theta (- PI)); [lra|eauto].
  - cbn [raise_loop]. destruct (Rlt_dec theta (- PI)); [|eauto].
    apply IH. rewrite S_INR in Hn. lra.
Qed.

Lemma lower_loop_total (n : nat) :
  forall theta, theta - 2 * PI * INR n <= PI ->
    exists r, lower_loop (S n) theta = Some r.
Proof.
  induction n as [|n IH]; intros theta Hn.
  - simpl in *. destruct (Rgt_dec theta PI) as [H|H]; [unfold Rgt in H; lra|eauto].
  - cbn [lower_loop]. destruct (Rgt_dec theta PI); [|eauto].
    apply IH. rewrite S_INR in Hn. lra.
Qed.




(** [|theta| / 2pi] rounded up is a sufficient number of turns. *)
Lemma turns_bound (theta : R) :
  Rabs theta <= 2 * PI * INR (Z.to_nat (up (Rabs theta / (2 * PI)))).
Proof.
  pose proof two_PI_pos as Hp.
  set (q := Rabs theta / (2 * PI)).
  assert (Hq : 0 <= q).
  { unfold q. apply Rmult_le_pos; [apply Rabs_pos|].
    left. now apply Rinv_0_lt_compat. }
  destruct (archimed q) as [Hup _].
  assert (Hz : (0 <= up q)%Z).
  { apply le_IZR. simpl. lra. }
  rewrite INR_IZR_INZ, Z2Nat.id by exact Hz.
  assert (Rabs theta = 2 * PI * q) by (unfold q; field; lra).
  nra.
Qed.

Lemma remap_run_fuel (theta : R) :
  exists r, remap_run (remap_fuel theta) theta = Some r.
Proof.
  unfold remap_run, remap_fuel.
  pose proof (turns_bound theta) as Hb.
  set (n := Z.to_nat (up (Rabs theta / (2 * PI)))) in *.
  pose proof PI_RGT_0 as Hpi.
  assert (Hth : - Rabs theta <= theta <= Rabs theta).
  { unfold Rabs. destruct (Rcase_abs theta); lra. }
  destruct (raise_loop_total n theta) as [t Ht]; [lra|].
  rewrite Ht.
  destruct (raise_loop_spec _ _ _ Ht) as (k & Hk & Hlo & Hor).
  apply lower_loop_total.
  destruct Hor as [->|[_ Hlt]]; [simpl in Hk; lra|].
  assert (0 <= PI * INR n) by (apply Rmult_le_pos; [lra|apply pos_INR]). lra.
Qed.


(** The complete input/output description of [_remap_angle]. *)
Lemma remap_angle_spec (theta : R) :
  - PI <= _remap_angle theta <= PI /\
  (exists k : Z, _remap_angle theta = theta + 2 * PI * IZR k) /\
  (- PI <= theta <= PI -> _remap_angle theta = theta).
Proof.
  destruct (remap_run_fuel theta) as [r Hr].
  unfold _remap_angle. rewrite Hr. unfold remap_run in Hr.
  destruct (raise_loop _ theta) as [t|] eqn:Et; [|discriminate].
  destruct (raise_loop_spec _ _ _ Et) as (k1 & Hk1 & Hlo1 & Hor1).
  destruct (lower_loop_spec _ _ _ Hr) as (k2 & Hk2 & Hhi2 & Hor2).
  pose proof PI_RGT_0 as Hpi.
  split; [|split].
  - split; [|exact Hhi2].
    destruct Hor2 as [->|[_ H]]; [simpl in Hk2; lra|lra].
  - exists (Z.of_nat k1 - Z.of_nat k2)%Z.
    rewrite minus_IZR, <- !INR_IZR_INZ. lra.
  - intros [Hl Hh].
    destruct Hor1 as [->|[H _]]; [simpl in Hk1|lra].
    destruct Hor2 as [->|[H _]]; [simpl in Hk2|lra].
    lra.
Qed.

(** Two angles of [[-pi, pi]] that differ by a whole number of turns differ
    by at most one turn. *)
Lemma turn_difference (a b : R) (j : Z) :
  - PI <= a <= PI -> - PI <= b <= PI -> a = b + 2 * PI * IZR j ->
  (j = -1 \/ j = 0 \/ j = 1)%Z.
Proof.
  intros Ha Hb E. pose proof PI_RGT_0 as Hpi.
  assert (H1 : IZR j < IZR 2) by (simpl; nra).
  assert (H2 : IZR (-2) < IZR j) by (simpl; nra).
  apply lt_IZR in H1, H2. lia.
Qed.

End AngleFacts.

(** ** Periodicity of the angle normaliser *)

Module AnglePeriod.
Import Angle AngleFacts.

(** Inside the open interval the representative of an angle modulo [2pi] is
    unique, so the normaliser cannot tell [theta] from [theta + 2pi*k]. *)
Lemma remap_angle_shift (theta : R) (k : Z) :
  exists j : Z,
    (j = -1 \/ j = 0 \/ j = 1)%Z /\
    _remap_angle (theta + 2 * PI * IZR k) = _remap_angle theta + 2 * PI * IZR j.
Proof.
  destruct (remap_angle_spec theta) as (Hr & [k1 Hk1] & _).
  destruct (remap_angle_spec (theta + 2 * PI * IZR k)) as (Hr' & [k2 Hk2] & _).
  exists (k + k2 - k1)%Z.
  assert (E : _remap_angle (theta + 2 * PI * IZR k)
              = _remap_angle theta + 2 * PI * IZR (k + k2 - k1)).
  { rewrite minus_IZR, plus_IZR. lra. }
  split; [|exact E].
  exact (turn_difference _ _ _ Hr' Hr E).
Qed.

(** C4, as stated, fails at the boundary: [-pi] and [-pi + 2pi = pi] are both
    left unchanged by the normaliser, and they are different. *)
Lemma remap_angle_boundary_not_periodic :
  _remap_angle (- PI + 2 * PI * IZR 1) <> _remap_angle (- PI).
Proof.
  pose proof PI_RGT_0 as Hpi.
  destruct (remap_angle_spec (- PI + 2 * PI * IZR 1)) as (_ & _ & H1).
  destruct (remap_angle_spec (- PI)) as (_ & _ & H2).
  rewrite H1 by lra. rewrite H2 by lra. lra.
Qed.

(** C4, amended: for every real [theta] and every integer [k], the
    normaliser returns the same value on [theta + 2pi*k] and on [theta]
    whenever that value lies strictly between [-pi] and [pi]; in every case
    the two values differ by [-2pi], [0] or [2pi], the first and the last
    being possible only at the boundary values [-pi] and [pi]. *)
Theorem remap_angle_periodic (theta : R) (k : Z) :
  (- PI < _remap_angle theta < PI ->
   _remap_angle (theta + 2 * PI * IZR k) = _remap_angle theta) /\
  (_remap_angle (theta + 2 * PI * IZR k) = _remap_angle theta \/
   Rabs (_remap_angle theta) = PI /\
   _remap_angle (theta + 2 * PI * IZR k) = - _remap_angle theta).
Proof.
  pose proof PI_RGT_0 as Hpi.
  destruct (remap_angle_shift theta k) as (j & Hj & E).
  destruct (remap_angle_spec theta) as (Hr & _).
  destruct (remap_angle_spec (theta + 2 * PI * IZR k)) as (Hr' & _).
  split.
  - intros Hin. destruct Hj as [-> | [-> | ->]]; simpl in E; lra.
  - destruct Hj as [-> | [-> | ->]]; simpl in E.
    + right. assert (_remap_angle theta = PI) as -> by lra.
      split; [apply Rabs_pos_eq; lra|lra].
    + left. lra.
    + right. assert (_remap_angle theta = - PI) as -> by lra.
      split; [rewrite Rabs_Ropp; apply Rabs_pos_eq; lra|lra].
Qed.

Lemma remap_angle_periodic_witness :
  - PI < _remap_angle 1 < PI /\
  _remap_angle (1 + 2 * PI * IZR 5) = _remap_angle 1.
Proof.
  assert (H : - PI < _remap_angle 1 < PI).
  { pose proof PI2_1 as H1. pose proof PI_RGT_0 as H0.
    destruct (remap_angle_spec 1) as (_ & _ & E). rewrite E; lra. }
  split; [exact H|].
  exact (proj1 (remap_angle_periodic 1 5) H).
Defined.

End AnglePeriod.

(** ** Range of the loss *)

Module LossFacts.
Import Numpy Loss.



Lemma pow2_zero (x : R) : x ^ 2 = 0 -> x = 0.
Proof.
  intros H. destruct (Req_dec x 0) as [E|E]; [exact E|].
  exfalso. exact (pow_nonzero x 2 E H).
Qed.




End LossFacts.

(** ** Periodicity of the kernel in the angle *)

Module KernelFacts.
Import Numpy Kernel.

Lemma sin_half_turn (a b : R) :
  sin ((a + 2 * PI - b) / 2) ^ 2 = sin ((a - b) / 2) ^ 2.
Proof.
  replace ((a + 2 * PI - b) / 2) with ((a - b) / 2 + PI) by field.
  rewrite neg_sin. ring.
Qed.

(** The value of the kernel on two arrays of five components. *)
Lemma kernel_value (a0 a1 a2 a3 a4 b0 b1 b2 b3 b4 s0 s1 s2 s3 s4 : R) :
  kernel [a0; a1; a2; a3; a4] (NpVec [b0; b1; b2; b3; b4]) [s0; s1; s2; s3; s4]
  = Ok (exp (- ((a0 - b0) ^ 2 / (2 * s0 ^ 2)
                + ((a1 - b1) ^ 2 / (2 * s1 ^ 2)
                + (sin ((a2 - b2) / 2) ^ 2 / (2 * s2 ^ 2)
                + ((a3 - b3) ^ 2 / (2 * s3 ^ 2)
                + ((a4 - b4) ^ 2 / (2 * s4 ^ 2) + 0))))))).
Proof. reflexivity. Qed.

(** C6: for 5-vectors [x], [x'] and a bandwidth vector of non-zero
    components, adding exactly [2pi] to the angle component of [x] leaves
    the kernel unchanged; and when [x] is [x'] with [2pi] added to its angle
    the kernel is the one of a zero difference, that is [1]. *)
Theorem kernel_angle_periodic
    (a0 a1 a2 a3 a4 b0 b1 b2 b3 b4 s0 s1 s2 s3 s4 : R) :
  s0 <> 0 -> s1 <> 0 -> s2 <> 0 -> s3 <> 0 -> s4 <> 0 ->
  let sigma := [s0; s1; s2; s3; s4] in
  let x' := NpVec [b0; b1; b2; b3; b4] in
  (exists k, kernel [a0; a1; a2; a3; a4] x' sigma = Ok k) /\
  kernel [a0; a1; a2 + 2 * PI; a3; a4] x' sigma
  = kernel [a0; a1; a2; a3; a4] x' sigma /\
  kernel [b0; b1; b2 + 2 * PI; b3; b4] x' sigma
  = kernel [b0; b1; b2; b3; b4] x' sigma /\
  kernel [b0; b1; b2; b3; b4] x' sigma = Ok 1.
Proof.
  intros H0 H1 H2 H3 H4 sigma x'. unfold sigma, x'.
  rewrite !kernel_value, !sin_half_turn.
  split; [eexists; reflexivity|]. split; [reflexivity|]. split; [reflexivity|].
  f_equal. rewrite <- exp_0. f_equal.
  replace ((b2 - b2) / 2) with 0 by field. rewrite sin_0.
  field. repeat split; assumption.
Qed.

Lemma kernel_angle_periodic_witness :
  kernel [0; 0; 1 + 2 * PI; 0; 0] (NpVec [1; 2; 3; 4; 5]) [1; 1; 1; 1; 1]
  = kernel [0; 0; 1; 0; 0] (NpVec [1; 2; 3; 4; 5]) [1; 1; 1; 1; 1].
Proof.
  refine (proj1 (proj2 (kernel_angle_periodic 0 0 1 0 0 1 2 3 4 5 1 1 1 1 1
                          _ _ _ _ _))); lra.
Defined.

End KernelFacts.

(** ** The down-hanging equilibrium *)

Module Equilibrium.
Import Physics.

Lemma tanh_0 : tanh 0 = 0.
Proof. unfold tanh. rewrite sinh_0. unfold Rdiv. apply Rmult_0_l. Qed.

(** The record [init] is the down-hanging state [(0, 0, pi, 0)]. *)
Lemma init_state : getState init = [0; 0; PI; 0].
Proof. reflexivity. Qed.

Lemma euler_step_hanging : euler_step 0 init = init.
Proof.
  unfold euler_step, cart_accel, pole_accel, m, dt, init, with_state.
  cbn [cart_location cart_velocity pole_angle pole_velocity pole_length
       pole_mass mu_c mu_p sim_steps delta_time max_force gravity cart_mass].
  rewrite sin_PI, cos_PI.
  f_equal; unfold Rdiv; ring.
Qed.

Lemma integrate_hanging (n : nat) : integrate n 0 init = init.
Proof.
  induction n as [|n IH]; [reflexivity|].
  cbn [integrate]. rewrite euler_step_hanging. exact IH.
Qed.

Lemma performAction_hanging : performAction 0 init = init.
Proof.
  unfold performAction.
  replace (max_force init * tanh (0 / max_force init)) with 0.
  - apply integrate_hanging.
  - replace (0 / max_force init) with 0 by (unfold Rdiv; ring).
    rewrite tanh_0. ring.
Qed.

(** C5: from the down-hanging state [(0, 0, pi, 0)], any number of calls of
    [performAction(0)] leaves the state exactly [(0, 0, pi, 0)]: with
    [sin(pi) = 0] and no force both accelerations vanish in every
    substep. *)
Theorem hanging_is_fixed_point (n : nat) :
  Nat.iter n (performAction 0) init = init /\
  getState (Nat.iter n (performAction 0) init) = [0; 0; PI; 0].
Proof.
  assert (H : Nat.iter n (performAction 0) init = init).
  { induction n as [|n IH]; [reflexivity|].
    rewrite Nat.iter_succ, IH. apply performAction_hanging. }
  rewrite H. split; reflexivity.
Qed.

End Equilibrium.

(** ** What [move_cart] returns *)

Module RolloutFacts.
Import Numpy Physics Rollout.

Lemma iter_shift {A : Type} (f : A -> A) (n : nat) (x : A) :
  Nat.iter n f (f x) = Nat.iter (S n) f x.
Proof.
  induction n as [|n IH]; [reflexivity|].
  rewrite Nat.iter_succ, IH. reflexivity.
Qed.

Lemma later_rows_succ (remap : bool) (action : R) (cp : CartPole) (n : nat) :
  later_rows remap action cp (S n)
  = row (advance remap action cp) action
      :: later_rows remap action (advance remap action cp) n.
Proof.
  unfold later_rows. cbn [seq map]. f_equal.
  rewrite <- seq_shift, map_map. apply map_ext. intros k.
  f_equal. symmetry. apply (iter_shift (advance remap action) (S k)).
Qed.

(** Once the history is bound, every step appends one row. *)
Lemma rollout_loop_bound (n : nat) (remap : bool) (initial_x : list R)
    (action : R) :
  forall cp h,
    rollout_loop n remap initial_x action (cp, Some h)
    = (Nat.iter n (advance remap action) cp,
       Some (h ++ later_rows remap action cp n)).
Proof.
  induction n as [|n IH]; intros cp h.
  - cbn. rewrite app_nil_r. reflexivity.
  - cbn [rollout_loop rollout_step]. fold (advance remap action cp).
    rewrite IH, later_rows_succ, <- app_assoc. cbn [app].
    rewrite iter_shift. reflexivity.
Qed.

(** The loop of [move_cart], started with [x_history] unbound. *)
Lemma rollout_loop_unbound (n : nat) (remap : bool) (initial_x : list R)
    (action : R) (cp : CartPole) :
  rollout_loop n remap initial_x action (cp, None)
  = (Nat.iter n (advance remap action) cp,
     match n with
     | O => None
     | S _ => Some (initial_x :: later_rows remap action cp n)
     end).
Proof.
  destruct n as [|n]; [reflexivity|].
  cbn [rollout_loop rollout_step]. fold (advance remap action cp).
  rewrite rollout_loop_bound, later_rows_succ, iter_shift. reflexivity.
Qed.

Lemma later_rows_length (remap : bool) (action : R) (cp : CartPole) (n : nat) :
  length (later_rows remap action cp n) = n.
Proof. unfold later_rows. rewrite length_map, length_seq. reflexivity. Qed.

Lemma later_rows_last (remap : bool) (action : R) (cp : CartPole) (n : nat)
    (x0 : list R) :
  last (x0 :: later_rows remap action cp (S n)) []
  = row (Nat.iter (S n) (advance remap action) cp) action.
Proof.
  unfold later_rows. rewrite seq_S, map_app. cbn [map Nat.add].
  change (x0 :: ?l ++ [?y]) with ((x0 :: l) ++ [y]).
  apply last_last.
Qed.

(** The value of [move_cart] on a 5-vector, for any number of steps. *)
Lemma move_cart_value (x v th w action : R) (steps : Z) (remap : bool) :
  move_cart [x; v; th; w; action] steps remap
  = if Z.eqb steps 4 then Raise AssertionError
    else match Z.to_nat steps with
         | O => Raise UnboundLocalError
         | S n =>
             Ok (Arr1 (row (Nat.iter (S n) (advance remap action)
                                     (with_state init x v th w)) action))
         end.
Proof.
  unfold move_cart. destruct (Z.eqb steps 4) eqn:E4; [reflexivity|].
  rewrite rollout_loop_unbound.
  destruct (Z.to_nat steps) as [|n] eqn:En; [reflexivity|].
  cbn [length]. rewrite later_rows_length.
  assert (Hn : Nat.eqb (S (S n)) 5 = false).
  { apply Nat.eqb_neq. apply Z.eqb_neq in E4. lia. }
  rewrite Hn, later_rows_last. reflexivity.
Qed.




(** C3: with [steps = 0] the loop body never runs, [x_history] is never
    bound, and [move_cart] raises instead of returning the initial pair. *)
Theorem move_cart_zero_steps_raises (x v th w action : R) (remap : bool) :
  move_cart [x; v; th; w; action] 0 remap = Raise UnboundLocalError.
Proof. rewrite move_cart_value. reflexivity. Qed.

(** C10: [move_cart] with [steps = 4] raises [AssertionError] whatever the
    first argument is, even one on which the unpacking that precedes the
    integration loop would fail; every other positive step count is
    accepted on a 5-vector. *)
Theorem move_cart_four_steps_rejected :
  (forall (initial_x : list R) (remap : bool),
     move_cart initial_x 4 remap = Raise AssertionError) /\
  (forall (x v th w action : R) (steps : Z) (remap : bool),
     (0 < steps)%Z -> steps <> 4%Z ->
     exists r, move_cart [x; v; th; w; action] steps remap = Ok r).
Proof.
  split.
  - reflexivity.
  - intros x v th w action steps remap Hpos H4.
    rewrite move_cart_value. apply Z.eqb_neq in H4. rewrite H4.
    destruct (Z.to_nat steps) as [|n] eqn:En; [lia|]. eexists. reflexivity.
Qed.

Lemma move_cart_four_steps_rejected_witness :
  move_cart [0; 0; 3; 0; 0] 4 false = Raise AssertionError /\
  (exists r, move_cart [0; 0; 3; 0; 0] 5 false = Ok r).
Proof.
  destruct move_cart_four_steps_rejected as [H4 Hok].
  split; [apply H4|].
  apply (Hok 0 0 3 0 0 5%Z false); lia.
Defined.

End RolloutFacts.

(** ** The first action from the state (0, 0, 3, 0) *)

Module FirstAction.
Import Physics.

(** Bounds on [pi] from Machin-like series of the standard library. *)
Lemma PI_bounds : 3.135 < PI < 3.1421.
Proof.
  pose proof (PI_2_3_7_ineq 0) as [Hlo _].
  pose proof (PI_2_3_7_ineq 1) as [_ Hhi].
  unfold sum_f_R0, tg_alt, PI_2_3_7_tg, Ratan_seq in Hlo, Hhi.
  simpl in Hlo, Hhi.
  split; lra.
Qed.

(** Sine and cosine of an angle slightly above [3]. *)
Lemma sin_near_pi (th : R) : 3 <= th <= 3.02 -> 0.11 <= sin th <= 0.1421.
Proof.
  intros [Hl Hh]. pose proof PI_bounds as [P1 P2].
  rewrite <- sin_PI_x. set (y := PI - th).
  assert (Hy : 0.115 <= y <= 0.1421) by (unfold y; lra).
  split.
  - destruct (SIN y) as [Hlb _]; [lra|lra|].
    unfold sin_lb, sin_approx, sin_term, sum_f_R0 in Hlb. simpl in Hlb.
    assert (y2 : 0 <= y * y <= 0.0202) by nra.
    assert (y3 : 0 <= y * y * y <= 0.003) by nra.
    assert (y5 : 0 <= y * y * y * (y * y)) by nra.
    assert (y7 : 0 <= y * y * y * (y * y) * (y * y) <= 0.003) by nra.
    lra.
  - left. apply Rlt_le_trans with y; [apply sin_lt_x; lra|lra].
Qed.

Lemma cos_near_pi (th : R) : 3 <= th <= 3.02 -> -1 <= cos th <= -0.97.
Proof.
  intros Hth. pose proof PI_bounds as [P1 P2].
  pose proof (sin_near_pi th Hth) as [S1 S2].
  pose proof (COS_bound th) as [C1 _].
  assert (Hneg : cos th < 0) by (apply cos_lt_0; lra).
  pose proof (sin2_cos2 th) as E. unfold Rsqr in E.
  split; [exact C1|]. nra.
Qed.

Lemma dt_at_state (x v th w : R) : dt (at_state x v th w) = 0.001.
Proof. unfold dt. cbn. lra. Qed.

Lemma euler_step_at_state (x v th w : R) :
  euler_step 0 (at_state x v th w)
  = let cp := at_state x v th w in
    let v' := v + 0.001 * cart_accel 0 cp in
    let w' := w + 0.001 * pole_accel 0 cp in
    at_state (x + 0.001 * v') v' (th + 0.001 * w') w'.
Proof.
  unfold euler_step. rewrite dt_at_state. reflexivity.
Qed.

(** Both accelerations are positive and bounded while the pole is between
    [3] and [3.02] radians and the velocities are small. *)
Lemma accel_bounds (x v th w : R) :
  3 <= th <= 3.02 -> 0 <= w <= 0.4 -> 0 <= v <= 0.05 ->
  0 < cart_accel 0 (at_state x v th w) <= 1 /\
  0 < pole_accel 0 (at_state x v th w) <= 8.
Proof.
  intros Hth Hw Hv.
  pose proof (sin_near_pi th Hth) as [S1 S2].
  pose proof (cos_near_pi th Hth) as [C1 C2].
  unfold cart_accel, pole_accel, m, at_state, with_state, init.
  cbn [cart_location cart_velocity pole_angle pole_velocity pole_length
       pole_mass mu_c mu_p sim_steps delta_time max_force gravity cart_mass].
  set (s := sin th) in *. set (c := cos th) in *.
  assert (Hc2 : 0.9 <= c ^ 2 <= 1) by nra.
  assert (Hm : 2.5 <= 4 * (0.5 + 0.5) - 3 * 0.5 * c ^ 2 <= 4) by lra.
  set (mm := 4 * (0.5 + 0.5) - 3 * 0.5 * c ^ 2) in *.
  assert (Hw2 : 0 <= w ^ 2 <= 0.16) by nra.
  assert (Hw2s : 0 <= w ^ 2 * s <= 0.023) by nra.
  assert (Hcs : 0.1 <= - (c * s) <= 0.1421) by nra.
  assert (Hinv : 0 < / mm) by (apply Rinv_0_lt_compat; lra).
  assert (Hinv' : / mm <= / 2.5) by (apply Rinv_le_contravar; lra).
  assert (Hinv'' : / mm <= 0.4) by lra.
  split.
  - set (num := 2 * (0.5 * 0.5 * w ^ 2 * s + 0 - 0.001 * v)
                - 3 * 0.5 * 9.8 * c * s).
    assert (Hnum : 1 <= num <= 2.2) by (unfold num; lra).
    unfold Rdiv. split; nra.
  - set (num := - 3 * c * (0.5 / 2 * 0.5 * w ^ 2 * s + 0 - 0.001 * v)
                + 6 * (0.5 + 0.5) / (0.5 * 0.5)
                  * (0.5 * 9.8 * s - 2 / 0.5 * 0.001 * w)).
    assert (Hc3 : 0 <= - 3 * c <= 3) by lra.
    assert (Hin : -0.00005 <= 0.5 / 2 * 0.5 * w ^ 2 * s + 0 - 0.001 * v
                  <= 0.003) by lra.
    assert (Hfirst : -0.001 <= - 3 * c * (0.5 / 2 * 0.5 * w ^ 2 * s + 0
                                          - 0.001 * v) <= 0.01) by nra.
    assert (Hnum : 1 <= num <= 17) by (unfold num; lra).
    unfold Rdiv. split; nra.
Qed.

Lemma falling_step (k : nat) (cp : CartPole) :
  (k < 50)%nat -> falling k cp -> falling (S k) (euler_step 0 cp).
Proof.
  intros Hk (x & v & th & w & -> & Hth & Hw & Hv & Hx & _).
  assert (Hk' : 0 <= INR k <= 49).
  { split; [apply pos_INR|].
    change 49 with (IZR (Z.of_nat 49)). rewrite <- INR_IZR_INZ.
    apply le_INR. lia. }
  destruct (accel_bounds x v th w) as [[A1 A2] [B1 B2]]; [lra|lra|lra|].
  rewrite euler_step_at_state. cbv zeta.
  set (a := cart_accel 0 (at_state x v th w)) in *.
  set (b := pole_accel 0 (at_state x v th w)) in *.
  exists (x + 0.001 * (v + 0.001 * a)), (v + 0.001 * a),
         (th + 0.001 * (w + 0.001 * b)), (w + 0.001 * b).
  rewrite S_INR.
  split; [reflexivity|].
  repeat split; try lra; nra.
Qed.

Lemma falling_integrate (n : nat) :
  forall k cp, (k + n <= 50)%nat -> falling k cp ->
    falling (k + n) (integrate n 0 cp).
Proof.
  induction n as [|n IH]; intros k cp Hk Hf.
  - rewrite Nat.add_0_r. exact Hf.
  - cbn [integrate]. replace (k + S n)%nat with (S k + n)%nat by lia.
    apply IH; [lia|]. apply falling_step; [lia|exact Hf].
Qed.

(** The state reached by one [performAction(0)] from (0, 0, 3, 0). *)
Lemma state_after_first_action :
  let cp := performAction 0 (at_state 0 0 3 0) in
  0 < cart_location cp /\ 0 < cart_velocity cp /\
  3 < pole_angle cp /\ 0 < pole_velocity cp.
Proof.
  cbv zeta. unfold performAction.
  replace (max_force (at_state 0 0 3 0)
           * tanh (0 / max_force (at_state 0 0 3 0))) with 0.
  2:{ replace (0 / max_force (at_state 0 0 3 0)) with 0 by (unfold Rdiv; ring).
      rewrite Equilibrium.tanh_0. ring. }
  change (sim_steps (at_state 0 0 3 0)) with 50%nat.
  assert (Hf : falling 50 (integrate 50 0 (at_state 0 0 3 0))).
  { apply (falling_integrate 50 0); [lia|].
    exists 0, 0, 3, 0. cbn [INR].
    split; [reflexivity|]. split; [lra|]. split; [lra|]. split; [lra|].
    split; [lra|]. intros Hk. exfalso. lia. }
  destruct Hf as (x & v & th & w & E & _ & _ & _ & _ & H). rewrite E.
  destruct H as (Hx & Hv & Hth & Hw); [lia|].
  cbn. repeat split; assumption.
Qed.

(** C1, as stated, fails: after the first action the cart has not stayed at
    rest at the origin. *)
Lemma first_action_cart_not_at_rest :
  let cp := performAction 0 (with_state init 0 0 3 0) in
  ~ (cart_location cp = 0 /\ cart_velocity cp = 0 /\
     pole_angle cp <> 3 /\ pole_velocity cp <> 0).
Proof.
  pose proof state_after_first_action as H. cbv zeta in *.
  unfold at_state in H. intros (Hx & Hv & _). lra.
Qed.

(** C1, amended: from the state (0, 0, 3.0, 0), with action 0 and the
    default constants (50 substeps, [delta_time = 0.05]), one call of
    [performAction] changes all four state variables: the pole angle and
    the pole velocity have grown, and the cart, pushed by the falling pole,
    has a positive velocity and a positive location. *)
Theorem first_action_moves_cart_and_pole :
  sim_steps init = 50%nat /\ delta_time init = 0.05 /\
  let cp := performAction 0 (with_state init 0 0 3 0) in
  0 < cart_location cp /\ 0 < cart_velocity cp /\
  3 < pole_angle cp /\ 0 < pole_velocity cp.
Proof.
  split; [reflexivity|]. split; [reflexivity|].
  exact state_after_first_action.
Qed.

End FirstAction.

(** ** [predict] does not write to its arguments *)

Module PredictFacts.
Import Numpy Kernel Predict.

(** A computation grows the store when it only appends cells to it, so that
    every cell that existed before still holds the same object. *)
Lemma grows_ret {A : Type} (a : A) : grows (ret a).
Proof. intros h. exists []. cbn. now rewrite app_nil_r. Qed.

Lemma grows_throw {A : Type} (e : exn) : grows (@throw A e).
Proof. intros h. exists []. cbn. now rewrite app_nil_r. Qed.

Lemma grows_lift {A : Type} (r : result A) : grows (lift r).
Proof. intros h. exists []. cbn. now rewrite app_nil_r. Qed.

Lemma grows_load (l : loc) : grows (load l).
Proof.
  intros h. exists []. unfold load.
  destruct (nth_error h l); cbn; now rewrite app_nil_r.
Qed.

Lemma grows_alloc (o : pyobj) : grows (alloc o).
Proof. intros h. exists [o]. reflexivity. Qed.

Lemma grows_bind {A B : Type} (c : M A) (k : A -> M B) :
  grows c -> (forall a, grows (k a)) -> grows (bindM c k).
Proof.
  intros Hc Hk h. unfold bindM.
  destruct (Hc h) as [f1 E1]. destruct (c h) as [[a|e] h1]; cbn in E1; subst h1.
  - destruct (Hk a (h ++ f1)) as [f2 E2]. exists (f1 ++ f2).
    rewrite E2. now rewrite app_assoc.
  - exists f1. reflexivity.
Qed.

(** The in-place assignment of the store model does not grow the store: the
    property is not one that every computation has. *)
Lemma assign_overwrites : ~ grows (assign 0%nat NoneList).
Proof.
  intros H. destruct (H [Nd (Scal 0)]) as [fresh E]. cbn in E. discriminate E.
Qed.

Ltac grows_step :=
  first
    [ apply grows_ret | apply grows_throw | apply grows_lift
    | apply grows_load | apply grows_alloc
    | apply grows_bind; [|intros ?]
    | match goal with
      | |- grows (match ?x with _ => _ end) => destruct x
      end ].

Section WithKernel.

Variable kernel : list R -> pyvec -> list R -> result R.

Lemma grows_load_floats (l : loc) : grows (load_floats l).
Proof. unfold load_floats. repeat grows_step. Qed.

Lemma grows_load_sigma (l : loc) : grows (load_sigma l).
Proof.
  unfold load_sigma. apply grows_bind; [apply grows_load_floats|intros a].
  repeat grows_step.
Qed.

Local Hint Resolve grows_load_floats grows_load_sigma : core.

Ltac grows_auto := repeat first [ solve [auto] | grows_step ].

Lemma grows_bind_row (sigma : loc) (X_i : ndarray) (vars : locals) :
  grows (bind_row kernel sigma X_i vars).
Proof. unfold bind_row. grows_auto. Qed.

Lemma grows_stack_row (vars : locals) : grows (stack_row vars).
Proof. unfold stack_row. grows_auto. Qed.

Lemma grows_predict_loop (its : list ndarray) (sigma : loc) :
  forall vars, grows (predict_loop kernel its sigma vars).
Proof.
  induction its as [|X_i its IH]; intros vars; cbn [predict_loop].
  - apply grows_ret.
  - apply grows_bind; [apply grows_bind_row|intros v1].
    apply grows_bind; [apply grows_stack_row|intros v2]. apply IH.
Qed.

Lemma grows_predict (x_test alpha X_i_vals sigma : loc) :
  grows (predict kernel x_test alpha X_i_vals sigma).
Proof.
  unfold predict.
  apply grows_bind; [apply grows_alloc|intros KnM_test].
  apply grows_bind; [auto|intros basis].
  apply grows_bind; [apply grows_lift|intros its].
  apply grows_bind; [apply grows_predict_loop|intros vars].
  grows_auto.
Qed.

End WithKernel.

Lemma grows_lookup {A : Type} (c : M A) (h : store) (l : loc) :
  grows c -> (l < length h)%nat ->
  nth_error (snd (c h)) l = nth_error h l.
Proof.
  intros Hc Hl. destruct (Hc h) as [fresh ->].
  apply nth_error_app1, Hl.
Qed.

(** C9: whatever the query, a call of [predict] leaves the objects that
    [alpha], [X_i_vals] and [sigma] refer to as they were: the store after
    the call is the store before it followed by newly created objects. *)
Theorem predict_leaves_fit_unchanged
    (kernel : list R -> pyvec -> list R -> result R)
    (x_test alpha X_i_vals sigma : loc) (h : store) :
  (alpha < length h)%nat -> (X_i_vals < length h)%nat ->
  (sigma < length h)%nat ->
  let h' := snd (predict kernel x_test alpha X_i_vals sigma h) in
  nth_error h' alpha = nth_error h alpha /\
  nth_error h' X_i_vals = nth_error h X_i_vals /\
  nth_error h' sigma = nth_error h sigma /\
  exists fresh, h' = h ++ fresh.
Proof.
  intros Ha Hx Hs h'. unfold h'.
  pose proof (grows_predict kernel x_test alpha X_i_vals sigma) as G.
  repeat split; try (apply grows_lookup; assumption).
  apply G.
Qed.

Lemma predict_leaves_fit_unchanged_witness :
  let h' := snd (predict kernel 0%nat 1%nat 2%nat 3%nat h0) in
  nth_error h' 1%nat = nth_error h0 1%nat /\
  nth_error h' 2%nat = nth_error h0 2%nat /\
  nth_error h' 3%nat = nth_error h0 3%nat /\
  exists fresh, h' = h0 ++ fresh.
Proof.
  apply (predict_leaves_fit_unchanged kernel 0%nat 1%nat 2%nat 3%nat h0);
    simpl; lia.
Defined.

End PredictFacts.

(** ** [predict] on concrete stores *)

Module PredictExample.
Import Numpy Kernel Predict.

(** A single query against two basis points: the prediction is the row
    [k^T alpha], a 1 x 4 array in a new cell. *)
Lemma predict_example :
  exists k1 k2 l h',
    kernel [0; 0; 0; 0; 0] (NpVec [0; 0; 0; 0; 0]) [1; 1; 1; 1; 1] = Ok k1 /\
    kernel [1; 1; 1; 1; 1] (NpVec [0; 0; 0; 0; 0]) [1; 1; 1; 1; 1] = Ok k2 /\
    predict kernel 0%nat 1%nat 2%nat 3%nat h0 = (Ok l, h') /\
    nth_error h' l = Some (Nd (Arr2 [[dot [k1; k2] [1; 5]; dot [k1; k2] [2; 6];
                                      dot [k1; k2] [3; 7]; dot [k1; k2] [4; 8]]])).
Proof.
  do 4 eexists. split; [reflexivity|]. split; [reflexivity|].
  split; reflexivity.
Qed.

(** A batch of exactly two queries: the first [np.vstack] onto
    [[None, None]] succeeds, the row of [None] stays in [KnM_test], and the
    final product is refused. *)
Lemma predict_two_queries :
  fst (predict kernel 0%nat 1%nat 2%nat 3%nat h0_batch) = Raise ValueError.
Proof. reflexivity. Qed.

End PredictExample.

(** ** The system solved by [train_alpha] *)

Module RegressionFacts.
Import Numpy Kernel Regression NormalEquations.

Ltac five l H :=
  destruct l as [|? [|? [|? [|? [|? [|? ?]]]]]]; try discriminate H.

(** On arrays of five components [kernel] returns the number described by
    the specification. *)
Lemma kernel_is_value (x x' sigma : list R) :
  length x = 5%nat -> length x' = 5%nat -> length sigma = 5%nat ->
  kernel x (NpVec x') sigma = Ok (kernel_value x x' sigma).
Proof.
  intros Hx Hx' Hs. five x Hx. five x' Hx'. five sigma Hs. reflexivity.
Qed.

Lemma sequence_map_ok {A B : Type} (f : A -> result B) (g : A -> B)
    (l : list A) :
  Forall (fun a => f a = Ok (g a)) l -> sequence (map f l) = Ok (map g l).
Proof.
  induction 1 as [|a l Ha _ IH]; [reflexivity|].
  cbn. rewrite Ha, IH. reflexivity.
Qed.

Lemma take_rows_valid (X : list (list R)) (M : list nat) :
  Forall (fun i => (i < length X)%nat) M -> take_rows X M = Ok (rows_at X M).
Proof.
  intros H. unfold take_rows, rows_at. apply sequence_map_ok.
  revert H. apply Forall_impl. intros i Hi.
  destruct (nth_error X i) as [r|] eqn:E.
  - now rewrite (nth_error_nth _ _ _ E).
  - apply nth_error_None in E. lia.
Qed.

Lemma rows_at_all (X : list (list R)) : rows_at X (seq 0 (length X)) = X.
Proof.
  unfold rows_at. apply nth_ext with (d := []) (d' := []).
  - now rewrite length_map, length_seq.
  - intros n Hn. rewrite length_map, length_seq in Hn.
    rewrite (nth_indep _ [] (nth 0 X [])) by (now rewrite length_map, length_seq).
    rewrite (map_nth (fun i => nth i X [])), seq_nth by exact Hn. reflexivity.
Qed.

Lemma rows_at_five (X : list (list R)) (M : list nat) :
  Forall (fun r => length r = 5%nat) X ->
  Forall (fun i => (i < length X)%nat) M ->
  Forall (fun r => length r = 5%nat) (rows_at X M).
Proof.
  intros HX HM. unfold rows_at. apply Forall_map. revert HM.
  apply Forall_impl. intros i Hi.
  rewrite Forall_forall in HX. apply HX, nth_In, Hi.
Qed.

Lemma unwrap_row (r : list R) : map float_of (map Some r) = r.
Proof. rewrite map_map. apply map_id. Qed.

Lemma unwrap_rows (K : list (list R)) : map (map float_of) (map (map Some) K) = K.
Proof.
  rewrite map_map. rewrite <- (map_id K) at 2. apply map_ext, unwrap_row.
Qed.

Lemma vstack_two (r1 r2 : list R) :
  length r1 = length r2 -> np_vstack (Arr1 r1) (Arr1 r2) = Ok (Arr2 [r1; r2]).
Proof.
  intros H. unfold np_vstack. cbn. rewrite !length_map, H, Nat.eqb_refl.
  now rewrite !unwrap_row.
Qed.

Lemma vstack_more (r0 : list R) (K : list (list R)) (r : list R) :
  length r0 = length r ->
  np_vstack (Arr2 (r0 :: K)) (Arr1 r) = Ok (Arr2 ((r0 :: K) ++ [r])).
Proof.
  intros H. unfold np_vstack. cbn [rows_of width map is_object orb].
  rewrite !length_map, H, Nat.eqb_refl.
  do 2 f_equal. change (map Some r0 :: map (map Some) K)
    with (map (map Some) (r0 :: K)).
  rewrite map_app, unwrap_rows. cbn [map]. now rewrite unwrap_row.
Qed.

Section KernelRows.

Variables (sigma : list R) (basis : list (list R)).
Hypothesis sigma_five : length sigma = 5%nat.
Hypothesis basis_five : Forall (fun r => length r = 5%nat) basis.

Lemma kernel_row_ok (x : list R) :
  length x = 5%nat ->
  sequence (map (fun RBF_x => kernel x (NpVec RBF_x) sigma) basis)
  = Ok (kernel_row sigma basis x).
Proof.
  intros Hx. apply sequence_map_ok. revert basis_five. apply Forall_impl.
  intros c Hc. now apply kernel_is_value.
Qed.

(** Once two rows have been stacked, every further pass of the loop of
    [generate_K] appends the kernel row of the current point. *)
Lemma generate_K_loop_stacked (X : list (list R)) (M : list nat)
    (rows : list (list R)) :
  take_rows X M = Ok basis ->
  Forall (fun r => length r = 5%nat) rows ->
  forall (r0 : list R) (K : list (list R)),
    length r0 = length basis ->
    generate_K_loop kernel rows X M sigma (Some (Arr2 (r0 :: K)))
    = Ok (Some (Arr2 ((r0 :: K) ++ map (kernel_row sigma basis) rows))).
Proof.
  intros HM. induction 1 as [|x rows Hx _ IH]; intros r0 K Hr0.
  - cbn. now rewrite app_nil_r.
  - cbn [generate_K_loop]. rewrite HM. cbn [bind].
    rewrite (kernel_row_ok x Hx). cbn [bind accumulate].
    rewrite vstack_more
      by (rewrite Hr0; unfold kernel_row; now rewrite length_map).
    cbn [app]. rewrite IH by exact Hr0.
    cbn [map app]. rewrite <- app_assoc. reflexivity.
Qed.

(** [generate_K] builds the kernel matrix as soon as there are two points;
    a single point yields a 1-d array. *)
Lemma generate_K_matrix (X : list (list R)) (M : list nat) :
  take_rows X M = Ok basis ->
  Forall (fun r => length r = 5%nat) X ->
  generate_K kernel X M sigma
  = match X with
    | [] => Raise UnboundLocalError
    | [x] => Ok (Arr1 (kernel_row sigma basis x))
    | _ => Ok (Arr2 (kernel_matrix X basis sigma))
    end.
Proof.
  intros HM HX. unfold generate_K.
  destruct X as [|x1 [|x2 X']]; [reflexivity| |].
  - cbn [generate_K_loop]. rewrite HM. cbn [bind].
    inversion HX as [|? ? H1 _]; subst.
    rewrite (kernel_row_ok x1 H1). reflexivity.
  - inversion HX as [|? ? H1 HX1]; subst. inversion HX1 as [|? ? H2 HX2]; subst.
    cbn [generate_K_loop]. rewrite HM. cbn [bind].
    rewrite (kernel_row_ok x1 H1), (kernel_row_ok x2 H2). cbn [bind accumulate].
    rewrite vstack_two by (unfold kernel_row; now rewrite !length_map).
    rewrite (generate_K_loop_stacked (x1 :: x2 :: X') M X' HM HX2)
      by (unfold kernel_row; now rewrite length_map).
    reflexivity.
Qed.

End KernelRows.

(** Shapes. *)
Lemma cols_are_true {A : Type} (n : nat) (K : list (list A)) :
  Forall (fun r => length r = n) K -> cols_are n K = true.
Proof.
  intros H. unfold cols_are. apply forallb_forall. rewrite Forall_forall in H.
  intros r Hr. apply Nat.eqb_eq, H, Hr.
Qed.

Lemma transpose_rows {A : Type} (d : A) (K : list (list A)) :
  Forall (fun r => length r = length K) (transpose d K).
Proof.
  unfold transpose. destruct K as [|r K]; [constructor|].
  apply Forall_map, Forall_forall. intros j _. now rewrite length_map.
Qed.

Lemma transpose_length {A : Type} (d : A) (r : list A) (K : list (list A)) :
  length (transpose d (r :: K)) = length r.
Proof. unfold transpose. now rewrite length_map, length_seq. Qed.

Lemma mat_mul_rows (a b : list (list R)) :
  Forall (fun r => length r = length (transpose 0 b)) (mat_mul a b).
Proof.
  unfold mat_mul. apply Forall_map, Forall_forall. intros r _.
  now rewrite length_map.
Qed.

Lemma same_width_rows {A : Type} (n : nat) (a b : list (list A)) :
  length a = length b ->
  Forall (fun r => length r = n) a -> Forall (fun r => length r = n) b ->
  Forall2 (fun r r' => length r = length r') a b.
Proof.
  intros Hl Ha. revert b Hl. induction Ha as [|r a Hr _ IH]; intros b Hl Hb.
  - destruct b; [constructor|discriminate].
  - destruct b as [|r' b]; [discriminate|]. inversion Hb; subst.
    constructor; [congruence|]. apply IH; [now injection Hl|assumption].
Qed.

Lemma add_rows_same_shape (a b : list (list R)) :
  Forall2 (fun r r' => length r = length r') a b ->
  add_rows a b = Ok (mat_add a b).
Proof.
  intros H. unfold add_rows, mat_add, broadcast at 1.
  rewrite (Forall2_length H), Nat.eqb_refl. cbn [bind].
  induction H as [|r r' a b Hr _ IH]; [reflexivity|].
  cbn [zip_with sequence]. unfold broadcast at 1.
  rewrite Hr, Nat.eqb_refl. cbn [bind]. rewrite IH. reflexivity.
Qed.

Lemma kernel_matrix_rows (xs cs : list (list R)) (sigma : list R) :
  Forall (fun r => length r = length cs) (kernel_matrix xs cs sigma).
Proof.
  unfold kernel_matrix. apply Forall_map, Forall_forall. intros x _.
  now rewrite length_map.
Qed.

Lemma mat_scale_rows (n : nat) (lam : R) (K : list (list R)) :
  Forall (fun r => length r = n) K ->
  Forall (fun r => length r = n) (mat_scale lam K).
Proof.
  intros H. unfold mat_scale. apply Forall_map. revert H. apply Forall_impl.
  intros r Hr. now rewrite length_map.
Qed.

(** Outside the degenerate sizes, the system that [train_alpha] hands to
    the solver is the one of the regularised normal equations: with at
    least two training samples and at least one basis index, all indices
    being valid, the weights returned are [solve] applied to
    [K_nm^T K_nm + lam * K_mm] and [K_nm^T Y_train]. *)
Lemma train_alpha_system
    (solve : list (list R) -> list (list R) -> list (list R))
    (x_train y_train : list (list R)) (M_vals : list nat) (sigma : list R)
    (lam : R) :
  (2 <= length x_train)%nat -> M_vals <> [] ->
  Forall (fun r => length r = 5%nat) x_train ->
  length sigma = 5%nat ->
  Forall (fun i => (i < length x_train)%nat) M_vals ->
  length y_train = length x_train ->
  let X_i_vals := rows_at x_train M_vals in
  let K_nm := kernel_matrix x_train X_i_vals sigma in
  let K_mm := kernel_matrix X_i_vals X_i_vals sigma in
  train_alpha kernel solve x_train y_train M_vals sigma lam
  = Ok (Arr2 (solve (normal_lhs K_nm K_mm lam) (normal_rhs K_nm y_train)),
        X_i_vals).
Proof.
  intros HN HM Hx Hs Hidx Hy X_i_vals K_nm K_mm.
  pose proof (take_rows_valid x_train M_vals Hidx) as Htake.
  fold X_i_vals in Htake.
  assert (Hb5 : Forall (fun r => length r = 5%nat) X_i_vals)
    by (apply rows_at_five; assumption).
  assert (Hbl : length X_i_vals = length M_vals)
    by (unfold X_i_vals, rows_at; now rewrite length_map).
  assert (Htake' : take_rows X_i_vals (seq 0 (length M_vals)) = Ok X_i_vals).
  { rewrite <- Hbl, take_rows_valid, rows_at_all; [reflexivity|].
    apply Forall_forall. intros i Hi. apply in_seq in Hi. lia. }
  unfold train_alpha. rewrite Htake. cbn [bind].
  rewrite (generate_K_matrix sigma X_i_vals Hs Hb5 x_train M_vals Htake Hx).
  rewrite (generate_K_matrix sigma X_i_vals Hs Hb5 X_i_vals _ Htake' Hb5).
  destruct x_train as [|x1 [|x2 X']]; [cbn in HN; lia|cbn in HN; lia|].
  fold K_nm. cbn [bind np_T np_matmul].
  assert (HK : exists k1 K', K_nm = k1 :: K' /\ length k1 = length X_i_vals).
  { unfold K_nm, kernel_matrix. cbn [map]. eexists _, _. split; [reflexivity|].
    now rewrite length_map. }
  destruct HK as (k1 & K' & EK & Hk1).
  assert (HKl : length K_nm = length y_train).
  { unfold K_nm, kernel_matrix. now rewrite length_map. }
  rewrite (cols_are_true (length K_nm)) by apply transpose_rows.
  cbn [bind].
  assert (Hgram : Forall (fun r => length r = length X_i_vals)
                         (mat_mul (transpose 0 K_nm) K_nm)).
  { pose proof (mat_mul_rows (transpose 0 K_nm) K_nm) as H.
    rewrite EK, transpose_length, Hk1 in H. rewrite EK. exact H. }
  assert (Hgl : length (mat_mul (transpose 0 K_nm) K_nm) = length X_i_vals).
  { unfold mat_mul. rewrite length_map, EK, transpose_length. exact Hk1. }
  assert (Hreg : Forall (fun r => length r = length X_i_vals)
                        (mat_scale lam K_mm))
    by apply mat_scale_rows, kernel_matrix_rows.
  assert (Hrl : length (mat_scale lam K_mm) = length X_i_vals)
    by (unfold mat_scale, K_mm, kernel_matrix; now rewrite !length_map).
  assert (Hadd : add_rows (mat_mul (transpose 0 K_nm) K_nm) (mat_scale lam K_mm)
                 = Ok (normal_lhs K_nm K_mm lam)).
  { apply add_rows_same_shape.
    apply same_width_rows with (n := length X_i_vals); [lia|assumption..]. }
  assert (Hlhs : length (normal_lhs K_nm K_mm lam) = length X_i_vals).
  { pose proof (Forall2_length
      (same_width_rows _ _ _ (eq_trans Hgl (eq_sym Hrl)) Hgram Hreg)) as H.
    unfold normal_lhs, mat_add.
    clear - Hgl Hrl. revert Hgl Hrl.
    generalize (mat_mul (transpose 0 K_nm) K_nm) (mat_scale lam K_mm)
               (length X_i_vals).
    induction l as [|r l IH]; intros [|r' l'] n; cbn; intros; try lia.
    destruct n; [lia|]. f_equal. apply IH; lia. }
  assert (Hrhs : length (normal_rhs K_nm y_train) = length X_i_vals).
  { unfold normal_rhs, mat_mul. rewrite length_map, EK, transpose_length.
    exact Hk1. }
  assert (Hfin : forall reg : ndarray,
            np_add (Arr2 (mat_mul (transpose 0 K_nm) K_nm)) reg
            = Ok (Arr2 (normal_lhs K_nm K_mm lam)) ->
            (lhs <- np_add (Arr2 (mat_mul (transpose 0 K_nm) K_nm)) reg ;;
             rhs <- (if cols_are (length y_train) (transpose 0 K_nm)
                     then Ok (Arr2 (mat_mul (transpose 0 K_nm) y_train))
                     else Raise ValueError) ;;
             alpha <- lstsq solve lhs rhs ;; Ok (alpha, X_i_vals))
            = Ok (Arr2 (solve (normal_lhs K_nm K_mm lam)
                              (normal_rhs K_nm y_train)), X_i_vals)).
  { intros reg ->. cbn [bind].
    rewrite <- HKl, (cols_are_true (length K_nm)) by apply transpose_rows.
    cbn [bind lstsq]. fold (normal_rhs K_nm y_train).
    rewrite Hlhs, Hrhs, Nat.eqb_refl. reflexivity. }
  destruct X_i_vals as [|b1 [|b2 B']] eqn:EB.
  - exfalso. apply HM. destruct M_vals; [reflexivity|discriminate Hbl].
  - cbn [bind np_scale]. apply Hfin. cbn [np_add].
    change [map (Rmult lam) (kernel_row sigma [b1] b1)]
      with (mat_scale lam K_mm).
    rewrite Hadd. reflexivity.
  - cbn [bind np_scale]. apply Hfin. cbn [np_add].
    fold K_mm. fold (mat_scale lam K_mm). rewrite Hadd. reflexivity.
Qed.

(** Consequently, whenever the solver answers that system with one of its
    least-squares solutions, so does [train_alpha]. *)
Lemma train_alpha_least_squares
    (solve : list (list R) -> list (list R) -> list (list R))
    (x_train y_train : list (list R)) (M_vals : list nat) (sigma : list R)
    (lam : R) :
  (2 <= length x_train)%nat -> M_vals <> [] ->
  Forall (fun r => length r = 5%nat) x_train ->
  length sigma = 5%nat ->
  Forall (fun i => (i < length x_train)%nat) M_vals ->
  length y_train = length x_train ->
  let X_i_vals := rows_at x_train M_vals in
  let A := normal_lhs (kernel_matrix x_train X_i_vals sigma)
                      (kernel_matrix X_i_vals X_i_vals sigma) lam in
  let B := normal_rhs (kernel_matrix x_train X_i_vals sigma) y_train in
  least_squares A B (solve A B) ->
  exists alpha,
    train_alpha kernel solve x_train y_train M_vals sigma lam
    = Ok (Arr2 alpha, X_i_vals) /\
    least_squares A B alpha.
Proof.
  intros HN HM Hx Hs Hidx Hy X_i_vals A B Hsolve.
  exists (solve A B). split; [|exact Hsolve].
  now apply train_alpha_system.
Qed.

(** C7: on a training set of a single sample, [generate_K] returns its only
    row as a 1-d array, the left-hand side handed to [np.linalg.lstsq] is
    not a matrix, and [train_alpha] raises instead of returning weights. *)
Theorem train_alpha_single_sample_raises
    (solve : list (list R) -> list (list R) -> list (list R))
    (x0 x1 x2 x3 x4 : R) (y : list R) (s0 s1 s2 s3 s4 lam : R) :
  train_alpha kernel solve [[x0; x1; x2; x3; x4]] [y] [0%nat]
              [s0; s1; s2; s3; s4] lam
  = Raise LinAlgError.
Proof. reflexivity. Qed.

End RegressionFacts.

(** ** Further properties of the angle normaliser *)

Module AngleMore.
Import Angle AngleFacts.



(** Normalising twice is the same as normalising once. *)
Theorem remap_angle_idempotent (theta : R) :
  _remap_angle (_remap_angle theta) = _remap_angle theta.
Proof.
  destruct (remap_angle_spec theta) as (Hr & _).
  destruct (remap_angle_spec (_remap_angle theta)) as (_ & _ & Hid).
  exact (Hid Hr).
Qed.

End AngleMore.

(** ** Further properties of the loss *)

Module LossMore.
Import Numpy Loss.

(** The value of [_loss] on a state of at least four components and four
    scales. *)
Lemma loss_value (a b c d : R) (rest : list R) (s1 s2 s3 s4 : R) :
  _loss (a :: b :: c :: d :: rest) [s1; s2; s3; s4]
  = Ok (1 - exp (- ((a / s1) ^ 2 + (b / s2) ^ 2
                    + (c / s3) ^ 2 + (d / s4) ^ 2) / 2)).
Proof.
  unfold _loss, np_divide, np_dot, broadcast, np_sum, bind. simpl.
  f_equal. f_equal. f_equal. unfold Rdiv. ring.
Qed.




(** A state of two or three components cannot be divided by four scales:
    numpy refuses to broadcast the shapes. *)
Theorem loss_short_state (state : list R) (s1 s2 s3 s4 : R) :
  (2 <= length state <= 3)%nat ->
  _loss state [s1; s2; s3; s4] = Raise ValueError.
Proof.
  intros [H2 H3].
  destruct state as [|a [|b [|c [|d rest]]]]; cbn in H2, H3; try lia;
    reflexivity.
Qed.

Lemma loss_short_state_witness :
  _loss [0; 1; 2] default_alpha = Raise ValueError.
Proof. apply (loss_short_state [0; 1; 2] 1 1 0.5 0.5). simpl. lia. Defined.

End LossMore.

(** ** Further properties of the kernel *)

Module KernelMore.
Import Numpy Kernel.





Lemma collect_none {A : Type} (l : list (option A)) :
  In None l -> collect l = None.
Proof.
  induction l as [|[x|] l IH]; intros H; [destruct H| |reflexivity].
  destruct H as [H|H]; [discriminate|]. cbn. now rewrite IH.
Qed.

Lemma squared_entry_ext (X X_dash X' X_dash' : list R) (i : nat) :
  nth_error X i = nth_error X' i ->
  nth_error X_dash i = nth_error X_dash' i ->
  squared_entry X X_dash i = squared_entry X' X_dash' i.
Proof. intros H1 H2. unfold squared_entry. now rewrite H1, H2. Qed.

Lemma kernel_short (X X_dash sigma : list R) :
  (length X < 5)%nat \/ (length X_dash < 5)%nat ->
  kernel X (NpVec X_dash) sigma = Raise UnboundLocalError.
Proof.
  intros H. unfold kernel, squared_numerator.
  rewrite collect_none; [reflexivity|].
  apply in_map_iff. exists 4%nat. split; [|cbn; tauto].
  unfold squared_entry.
  destruct H as [H|H].
  - assert (E : nth_error X 4 = None) by (apply nth_error_None; lia).
    now rewrite E.
  - assert (E : nth_error X_dash 4 = None) by (apply nth_error_None; lia).
    rewrite E. now destruct (nth_error X 4).
Qed.

(** [kernel] reads the components 0 to 4 of its two points.  When one of
    them has fewer than five components the comprehension fails, the
    [except] branch only prints, and the function raises; components after
    the fifth are never read. *)
Theorem kernel_needs_five (X X_dash extra extra' sigma : list R) :
  ((length X < 5)%nat \/ (length X_dash < 5)%nat ->
   kernel X (NpVec X_dash) sigma = Raise UnboundLocalError) /\
  (length X = 5%nat -> length X_dash = 5%nat ->
   kernel (X ++ extra) (NpVec (X_dash ++ extra')) sigma
   = kernel X (NpVec X_dash) sigma).
Proof.
  split.
  - apply kernel_short.
  - intros HX HD. unfold kernel, squared_numerator.
    replace (map (squared_entry (X ++ extra) (X_dash ++ extra')) (seq 0 5))
      with (map (squared_entry X X_dash) (seq 0 5)); [reflexivity|].
    apply map_ext_in. intros i Hi. apply in_seq in Hi.
    apply squared_entry_ext; symmetry; apply nth_error_app1; lia.
Qed.

Lemma kernel_needs_five_witness :
  kernel [1; 2; 3; 4] (NpVec [1; 2; 3; 4; 5]) [1; 1; 1; 1; 1]
  = Raise UnboundLocalError /\
  kernel ([1; 2; 3; 4; 5] ++ [6]) (NpVec ([5; 4; 3; 2; 1] ++ [0; 0]))
         [1; 1; 1; 1; 1]
  = kernel [1; 2; 3; 4; 5] (NpVec [5; 4; 3; 2; 1]) [1; 1; 1; 1; 1].
Proof.
  split.
  - apply (proj1 (kernel_needs_five [1; 2; 3; 4] [1; 2; 3; 4; 5] [] []
                                    [1; 1; 1; 1; 1])).
    left. simpl. lia.
  - apply (proj2 (kernel_needs_five [1; 2; 3; 4; 5] [5; 4; 3; 2; 1] [6] [0; 0]
                                    [1; 1; 1; 1; 1])); reflexivity.
Defined.

End KernelMore.

(** ** Further properties of the physics engine *)

Module PhysicsMore.
Import Physics.

Lemma exp_sum_pos (x : R) : 0 < exp x + exp (- x).
Proof. pose proof (exp_pos x). pose proof (exp_pos (- x)). lra. Qed.

Lemma tanh_neg (x : R) : tanh (- x) = - tanh x.
Proof.
  unfold tanh, sinh, cosh. rewrite Ropp_involutive.
  pose proof (exp_sum_pos x). field. lra.
Qed.


(** The denominator [m] of both accelerations is bounded away from zero:
    with positive masses it is at least [4*cart_mass + pole_mass], whatever
    the angle of the pole. *)
Theorem m_positive (cp : CartPole) :
  0 < cart_mass cp -> 0 < pole_mass cp ->
  4 * cart_mass cp + pole_mass cp <= m cp /\ 0 < m cp.
Proof.
  intros Hc Hp. unfold m. cbv zeta.
  pose proof (COS_bound (pole_angle cp)) as [C1 C2].
  assert (Hc2 : cos (pole_angle cp) ^ 2 <= 1) by nra.
  assert (pole_mass cp * cos (pole_angle cp) ^ 2 <= pole_mass cp) by nra.
  split; lra.
Qed.

Lemma m_positive_witness :
  4 * cart_mass init + pole_mass init <= m init /\ 0 < m init.
Proof. apply (m_positive init); cbn; lra. Defined.



Lemma same_constants_refl (cp : CartPole) : same_constants cp cp.
Proof. unfold same_constants. tauto. Qed.

Lemma same_constants_trans (a b c : CartPole) :
  same_constants a b -> same_constants b c -> same_constants a c.
Proof. unfold same_constants. intuition congruence. Qed.

Lemma euler_step_constants (force : R) (cp : CartPole) :
  same_constants cp (euler_step force cp).
Proof. unfold same_constants, euler_step. cbn. tauto. Qed.

Lemma integrate_constants (n : nat) (force : R) :
  forall cp, same_constants cp (integrate n force cp).
Proof.
  induction n as [|n IH]; intros cp; [apply same_constants_refl|].
  cbn [integrate]. eapply same_constants_trans; [apply euler_step_constants|].
  apply IH.
Qed.

(** No number of actions changes the physical constants of a cart-pole:
    lengths, masses, frictions, gravity, the force limit and the
    integration settings are those it started with. *)
Theorem performAction_keeps_constants (actions : list R) (cp : CartPole) :
  same_constants cp (fold_left (fun c a => performAction a c) actions cp).
Proof.
  revert cp. induction actions as [|a actions IH]; intros cp.
  - apply same_constants_refl.
  - cbn [fold_left]. eapply same_constants_trans; [|apply IH].
    unfold performAction. apply integrate_constants.
Qed.

Lemma euler_step_mirror (force : R) (cp : CartPole) :
  euler_step (- force) (mirror cp) = mirror (euler_step force cp).
Proof.
  destruct cp as [x v th w pl pm mc mp n dtm mf g cm].
  unfold euler_step, mirror, with_state, cart_accel, pole_accel, m, dt.
  cbn [cart_location cart_velocity pole_angle pole_velocity pole_length
       pole_mass mu_c mu_p sim_steps delta_time max_force gravity cart_mass].
  rewrite sin_neg, cos_neg. f_equal; unfold Rdiv; ring.
Qed.

Lemma integrate_mirror (n : nat) (force : R) :
  forall cp, integrate n (- force) (mirror cp) = mirror (integrate n force cp).
Proof.
  induction n as [|n IH]; intros cp; [reflexivity|].
  cbn [integrate]. rewrite euler_step_mirror. apply IH.
Qed.

(** The dynamics have no preferred side: reflecting the state through the
    origin and reversing the action gives the reflected outcome. *)
Theorem performAction_mirror (action : R) (cp : CartPole) :
  performAction (- action) (mirror cp) = mirror (performAction action cp).
Proof.
  unfold performAction.
  change (sim_steps (mirror cp)) with (sim_steps cp).
  change (max_force (mirror cp)) with (max_force cp).
  replace (max_force cp * tanh (- action / max_force cp))
    with (- (max_force cp * tanh (action / max_force cp))).
  - apply integrate_mirror.
  - replace (- action / max_force cp) with (- (action / max_force cp))
      by (unfold Rdiv; ring).
    rewrite tanh_neg. ring.
Qed.

(** Direction of gravity: a pole released at rest with no force accelerates
    towards the hanging position.  With positive masses, length and
    gravity, the angular acceleration has the sign of [sin(pole_angle)], so
    the angle moves away from 0 (upright) and towards [pi] or [-pi]. *)
Theorem gravity_pulls_pole_down (cp : CartPole) :
  0 < cart_mass cp -> 0 < pole_mass cp -> 0 < pole_length cp ->
  0 < gravity cp ->
  cart_velocity cp = 0 -> pole_velocity cp = 0 ->
  (0 < sin (pole_angle cp) -> 0 < pole_accel 0 cp) /\
  (sin (pole_angle cp) < 0 -> pole_accel 0 cp < 0) /\
  (sin (pole_angle cp) = 0 -> pole_accel 0 cp = 0).
Proof.
  intros Hc Hp Hl Hg Hv Hw.
  destruct (m_positive cp Hc Hp) as [_ Hm].
  assert (E : pole_accel 0 cp
              = 6 * (cart_mass cp + pole_mass cp) * gravity cp / pole_length cp
                * / m cp * sin (pole_angle cp)).
  { unfold pole_accel. cbv zeta. rewrite Hv, Hw. field.
    repeat split; lra. }
  assert (Hk : 0 < 6 * (cart_mass cp + pole_mass cp) * gravity cp
                   / pole_length cp * / m cp).
  { apply Rmult_lt_0_compat; [|now apply Rinv_0_lt_compat].
    apply Rmult_lt_0_compat; [|now apply Rinv_0_lt_compat]. nra. }
  rewrite E. set (k := 6 * _ * _ / _ * / _) in *.
  repeat split; intros Hs; [nra|nra|rewrite Hs; ring].
Qed.

Lemma gravity_pulls_pole_down_witness :
  (0 < sin (pole_angle (at_state 0 0 1 0)) ->
   0 < pole_accel 0 (at_state 0 0 1 0)) /\
  (sin (pole_angle (at_state 0 0 1 0)) < 0 ->
   pole_accel 0 (at_state 0 0 1 0) < 0) /\
  (sin (pole_angle (at_state 0 0 1 0)) = 0 ->
   pole_accel 0 (at_state 0 0 1 0) = 0).
Proof.
  apply (gravity_pulls_pole_down (at_state 0 0 1 0)); cbn; lra.
Defined.

End PhysicsMore.

(** ** Further properties of [move_cart] *)

Module RolloutMore.
Import Numpy Physics Rollout RolloutFacts PhysicsMore.

Lemma advance_constants (remap : bool) (action : R) (cp : CartPole) :
  same_constants cp (advance remap action cp).
Proof.
  unfold advance.
  assert (H : same_constants cp (performAction action cp))
    by (unfold performAction; apply integrate_constants).
  destruct remap; [|exact H].
  eapply same_constants_trans; [exact H|].
  unfold same_constants, remap_angle. cbn. tauto.
Qed.

Lemma iter_advance_constants (remap : bool) (action : R) (n : nat)
    (cp : CartPole) :
  same_constants cp (Nat.iter n (advance remap action) cp).
Proof.
  induction n as [|n IH]; [apply same_constants_refl|].
  rewrite Nat.iter_succ. eapply same_constants_trans; [exact IH|].
  apply advance_constants.
Qed.

(** A cart-pole with the constants of [init] is determined by its state. *)
Lemma with_state_of_fields (cp : CartPole) :
  same_constants init cp ->
  with_state init (cart_location cp) (cart_velocity cp) (pole_angle cp)
             (pole_velocity cp) = cp.
Proof.
  destruct cp. unfold same_constants, with_state. cbn.
  intros (-> & -> & -> & -> & -> & -> & -> & -> & ->). reflexivity.
Qed.

(** Rollouts compose: the 5-vector returned after [a] steps, handed back to
    [move_cart] for [b] further steps, gives what a single rollout of
    [a + b] steps returns (none of the three counts being the refused 4). *)
Theorem move_cart_composes (x v th w action : R) (a b : Z) (remap : bool) :
  (1 <= a)%Z -> (1 <= b)%Z -> a <> 4%Z -> b <> 4%Z -> (a + b)%Z <> 4%Z ->
  exists y : list R,
    move_cart [x; v; th; w; action] a remap = Ok (Arr1 y) /\
    move_cart y b remap = move_cart [x; v; th; w; action] (a + b) remap.
Proof.
  intros Ha Hb Ha4 Hb4 Hab4.
  rewrite !move_cart_value.
  apply Z.eqb_neq in Ha4, Hb4, Hab4. rewrite Ha4, Hab4.
  destruct (Z.to_nat a) as [|n] eqn:En; [lia|].
  destruct (Z.to_nat (a + b)) as [|k] eqn:Ek; [lia|].
  eexists. split; [reflexivity|].
  unfold row at 1. rewrite move_cart_value, Hb4.
  destruct (Z.to_nat b) as [|p] eqn:Ep; [lia|].
  rewrite with_state_of_fields.
  2:{ eapply same_constants_trans; [|apply iter_advance_constants].
      unfold same_constants, with_state. cbn. tauto. }
  rewrite <- Nat.iter_add.
  replace (S p + S n)%nat with (S k) by lia. reflexivity.
Qed.

Lemma move_cart_composes_witness :
  exists y : list R,
    move_cart [0; 0; 3; 0; 1] 2 true = Ok (Arr1 y) /\
    move_cart y 3 true = move_cart [0; 0; 3; 0; 1] (2 + 3) true.
Proof. apply (move_cart_composes 0 0 3 0 1 2 3 true); lia. Defined.

(** The value returned by an accepted rollout is a 5-vector that carries
    the action it was given; with [remap_angle=True] its angle lies in
    [[-pi, pi]]. *)
Theorem move_cart_result_shape (x v th w action : R) (steps : Z)
    (remap : bool) :
  (1 <= steps)%Z -> steps <> 4%Z ->
  exists x' v' th' w' : R,
    move_cart [x; v; th; w; action] steps remap
    = Ok (Arr1 [x'; v'; th'; w'; action]) /\
    (remap = true -> - PI <= th' <= PI).
Proof.
  intros H1 H4. rewrite move_cart_value.
  apply Z.eqb_neq in H4. rewrite H4.
  destruct (Z.to_nat steps) as [|n] eqn:En; [lia|].
  do 4 eexists. split; [reflexivity|].
  intros ->. rewrite Nat.iter_succ. unfold advance at 1.
  cbn [remap_angle pole_angle with_state].
  apply AngleFacts.remap_angle_spec.
Qed.

Lemma move_cart_result_shape_witness :
  exists x' v' th' w' : R,
    move_cart [0; 0; 3; 0; 1] 7 true = Ok (Arr1 [x'; v'; th'; w'; 1]) /\
    (true = true -> - PI <= th' <= PI).
Proof. apply (move_cart_result_shape 0 0 3 0 1 7 true); lia. Defined.

(** A first argument that does not have exactly five components cannot be
    unpacked into the state and the action. *)
Theorem move_cart_needs_five (initial_x : list R) (steps : Z) (remap : bool) :
  length initial_x <> 5%nat -> steps <> 4%Z ->
  move_cart initial_x steps remap = Raise ValueError.
Proof.
  intros H5 H4. unfold move_cart. apply Z.eqb_neq in H4. rewrite H4.
  destruct initial_x as [|? [|? [|? [|? [|? [|? ?]]]]]]; try reflexivity.
  now elim H5.
Qed.

Lemma move_cart_needs_five_witness :
  move_cart [0; 0; 3; 0] 1 false = Raise ValueError.
Proof.
  apply (move_cart_needs_five [0; 0; 3; 0] 1 false); [simpl; lia|lia].
Defined.

End RolloutMore.

(** ** Properties of [display_RMSE] *)

Module EvaluationFacts.
Import Numpy Evaluation.

Lemma sum_squares_nonneg (v : list R) : 0 <= np_sum (np_square v).
Proof.
  induction v as [|x v IH]; [cbn; lra|].
  change (np_sum (np_square (x :: v))) with (x ^ 2 + np_sum (np_square v)).
  pose proof (pow2_ge_0 x). lra.
Qed.

Lemma sum_squares_zero (v : list R) :
  np_sum (np_square v) = 0 <-> Forall (fun x => x = 0) v.
Proof.
  induction v as [|x v IH].
  - cbn. split; [constructor|reflexivity].
  - pose proof (sum_squares_nonneg v) as Hv. pose proof (pow2_ge_0 x) as Hx.
    change (np_sum (np_square (x :: v))) with (x ^ 2 + np_sum (np_square v)).
    split.
    + intros H. assert (Ex : x ^ 2 = 0) by lra.
      constructor; [exact (LossFacts.pow2_zero x Ex)|]. apply IH. lra.
    + intros H. inversion H as [|? ? E Hrest]; subst.
      apply IH in Hrest. rewrite Hrest. ring.
Qed.

Lemma zip_minus_zero (p : list R) :
  forall t, length p = length t ->
    (Forall (fun x => x = 0) (zip_with Rminus p t) <-> p = t).
Proof.
  induction p as [|x p IH]; intros [|y t] Hl; try discriminate Hl.
  - split; [reflexivity|constructor].
  - cbn [zip_with]. injection Hl as Hl. split.
    + intros H. inversion H as [|? ? E Hrest]; subst.
      apply (IH t Hl) in Hrest. f_equal; [lra|exact Hrest].
    + intros [= -> ->]. constructor; [ring|]. now apply (IH t Hl).
Qed.

Lemma zip_with_length {A B C : Type} (f : A -> B -> C) (a : list A) :
  forall b, length a = length b -> length (zip_with f a b) = length a.
Proof.
  induction a as [|x a IH]; intros [|y b] H; try discriminate H;
    [reflexivity|]. cbn. f_equal. apply IH. now injection H.
Qed.

(** The column [j] of an array whose rows are all long enough. *)
Lemma column_ok (a : list (list R)) (j : nat) :
  Forall (fun r => (j < length r)%nat) a ->
  column a j = Ok (map (fun r => nth j r 0) a).
Proof.
  intros H. unfold column. apply RegressionFacts.sequence_map_ok.
  revert H. apply Forall_impl. intros r Hr.
  destruct (nth_error r j) as [x|] eqn:E.
  - now rewrite (nth_error_nth _ _ _ E).
  - apply nth_error_None in E. lia.
Qed.

(** The error of one column, and when it vanishes. *)
Lemma rmse_column_value (predictions targets : list (list R)) (j : nat) :
  length predictions = length targets -> predictions <> [] ->
  Forall (fun r => (j < length r)%nat) predictions ->
  Forall (fun r => (j < length r)%nat) targets ->
  exists e : R,
    rmse_column predictions targets j = Ok e /\ 0 <= e /\
    (e = 0 <-> map (fun r => nth j r 0) predictions
               = map (fun r => nth j r 0) targets).
Proof.
  intros Hl Hne Hp Ht. unfold rmse_column.
  rewrite (column_ok _ _ Hp), (column_ok _ _ Ht). cbn [bind].
  set (p := map (fun r => nth j r 0) predictions).
  set (t := map (fun r => nth j r 0) targets).
  assert (Hpt : length p = length t) by (unfold p, t; now rewrite !length_map).
  unfold broadcast. rewrite Hpt, Nat.eqb_refl. cbn [bind].
  eexists. split; [reflexivity|]. split; [apply sqrt_pos|].
  set (d := zip_with Rminus p t).
  assert (Hn : 0 < INR (length (np_square d))).
  { unfold np_square, d. rewrite length_map, zip_with_length by exact Hpt.
    unfold p. rewrite length_map. apply lt_0_INR.
    destruct predictions; [now elim Hne|cbn; lia]. }
  pose proof (sum_squares_nonneg d) as Hs.
  assert (Hi : 0 < / INR (length (np_square d)))
    by now apply Rinv_0_lt_compat.
  assert (Hmean : 0 <= np_mean (np_square d)).
  { unfold np_mean, Rdiv. apply Rmult_le_pos; lra. }
  rewrite <- (zip_minus_zero p t Hpt), <- sum_squares_zero. fold d.
  split.
  - intros H. apply sqrt_eq_0 in H; [|exact Hmean].
    unfold np_mean, Rdiv in H.
    apply Rmult_integral in H. destruct H as [H|H]; [exact H|lra].
  - intros H. unfold np_mean. rewrite H. unfold Rdiv. rewrite Rmult_0_l.
    apply sqrt_0.
Qed.

Lemma firstn4_nth (p t : list R) :
  (4 <= length p)%nat -> (4 <= length t)%nat ->
  (firstn 4 p = firstn 4 t <->
   forall j, (j < 4)%nat -> nth j p 0 = nth j t 0).
Proof.
  intros Hp Ht.
  destruct p as [|p0 [|p1 [|p2 [|p3 p]]]]; cbn in Hp; try lia.
  destruct t as [|t0 [|t1 [|t2 [|t3 t]]]]; cbn in Ht; try lia.
  cbn [firstn]. split.
  - intros [= -> -> -> ->] j Hj.
    destruct j as [|[|[|[|j]]]]; try reflexivity; lia.
  - intros H.
    pose proof (H 0%nat ltac:(lia)) as H0. pose proof (H 1%nat ltac:(lia)) as H1.
    pose proof (H 2%nat ltac:(lia)) as H2. pose proof (H 3%nat ltac:(lia)) as H3.
    cbn in H0, H1, H2, H3. congruence.
Qed.

Lemma columns_agree (predictions : list (list R)) :
  forall targets,
    length predictions = length targets ->
    Forall (fun r => (4 <= length r)%nat) predictions ->
    Forall (fun r => (4 <= length r)%nat) targets ->
    ((forall j, (j < 4)%nat ->
        map (fun r => nth j r 0) predictions = map (fun r => nth j r 0) targets)
     <-> Forall2 (fun p t => firstn 4 p = firstn 4 t) predictions targets).
Proof.
  induction predictions as [|p ps IH]; intros [|t ts] Hl Hp Ht;
    try discriminate Hl.
  - split; [constructor|reflexivity].
  - injection Hl as Hl.
    inversion Hp as [|? ? Hp0 Hps]; inversion Ht as [|? ? Ht0 Hts]; subst.
    split.
    + intros H. constructor.
      * apply firstn4_nth; [assumption..|]. intros j Hj.
        specialize (H j Hj). now injection H.
      * apply IH; [assumption..|]. intros j Hj.
        specialize (H j Hj). now injection H.
    + intros H j Hj. inversion H as [|? ? ? ? E Hrest]; subst. cbn [map].
      f_equal.
      * now apply (proj1 (firstn4_nth p t Hp0 Ht0) E).
      * now apply (proj2 (IH ts Hl Hps Hts)).
Qed.

(** [display_RMSE] on predictions and targets of the same positive number
    of rows, each row with at least four columns: it returns four
    non-negative numbers, and they are all zero exactly when predictions
    and targets agree on their first four columns.  Further columns are
    not looked at. *)
Theorem display_RMSE_zero_iff_equal (predictions y_test : list (list R)) :
  length predictions = length y_test -> predictions <> [] ->
  Forall (fun r => (4 <= length r)%nat) predictions ->
  Forall (fun r => (4 <= length r)%nat) y_test ->
  exists e0 e1 e2 e3 : R,
    display_RMSE predictions y_test = Ok [e0; e1; e2; e3] /\
    0 <= e0 /\ 0 <= e1 /\ 0 <= e2 /\ 0 <= e3 /\
    (e0 = 0 /\ e1 = 0 /\ e2 = 0 /\ e3 = 0 <->
     Forall2 (fun p t => firstn 4 p = firstn 4 t) predictions y_test).
Proof.
  intros Hl Hne Hp Ht.
  assert (Hcol : forall j, (j < 4)%nat ->
            Forall (fun r => (j < length r)%nat) predictions /\
            Forall (fun r => (j < length r)%nat) y_test).
  { intros j Hj. split; [revert Hp|revert Ht]; apply Forall_impl; intros; lia. }
  destruct (rmse_column_value predictions y_test 0 Hl Hne) as (e0 & E0 & P0 & Z0);
    [apply Hcol; lia..|].
  destruct (rmse_column_value predictions y_test 1 Hl Hne) as (e1 & E1 & P1 & Z1);
    [apply Hcol; lia..|].
  destruct (rmse_column_value predictions y_test 2 Hl Hne) as (e2 & E2 & P2 & Z2);
    [apply Hcol; lia..|].
  destruct (rmse_column_value predictions y_test 3 Hl Hne) as (e3 & E3 & P3 & Z3);
    [apply Hcol; lia..|].
  exists e0, e1, e2, e3. split.
  { unfold display_RMSE. cbn [seq map sequence]. rewrite E0, E1, E2, E3.
    reflexivity. }
  repeat (split; [assumption|]).
  rewrite <- (columns_agree predictions y_test Hl Hp Ht). split.
  - intros (H0 & H1 & H2 & H3) j Hj.
    destruct j as [|[|[|[|j]]]]; [now apply Z0|now apply Z1|now apply Z2
                                  |now apply Z3|lia].
  - intros H. repeat split;
      [apply Z0|apply Z1|apply Z2|apply Z3]; apply H; lia.
Qed.

Lemma display_RMSE_zero_iff_equal_witness :
  exists e0 e1 e2 e3 : R,
    display_RMSE [[1; 2; 3; 4; 9]; [0; 0; 0; 0; 0]]
                 [[1; 2; 3; 4]; [0; 0; 0; 1]] = Ok [e0; e1; e2; e3] /\
    0 <= e0 /\ 0 <= e1 /\ 0 <= e2 /\ 0 <= e3 /\
    (e0 = 0 /\ e1 = 0 /\ e2 = 0 /\ e3 = 0 <->
     Forall2 (fun p t => firstn 4 p = firstn 4 t)
             [[1; 2; 3; 4; 9]; [0; 0; 0; 0; 0]] [[1; 2; 3; 4]; [0; 0; 0; 1]]).
Proof.
  apply (display_RMSE_zero_iff_equal
           [[1; 2; 3; 4; 9]; [0; 0; 0; 0; 0]] [[1; 2; 3; 4]; [0; 0; 0; 1]]);
    [reflexivity|discriminate|repeat constructor; simpl; lia
    |repeat constructor; simpl; lia].
Defined.

End EvaluationFacts.

(** ** Properties of [project_loss] *)

Module ProjectLossFacts.
Import Numpy Physics Rollout RolloutFacts ProjectLoss.

Lemma loss_of_row (cp : CartPole) (action : R) :
  Loss.loss (removelast (row cp action)) Loss.default_alpha
  = Ok (state_loss cp).
Proof. unfold Loss.loss. cbn [row removelast]. apply LossMore.loss_value. Qed.


(** The losses appended by [n] further steps. *)
Lemma project_loss_loop_value (n : nat) (action : R) :
  forall cp losses ys,
    project_loss_loop n action cp losses ys
    = Ok (losses ++ map (fun k => state_loss
                                    (Nat.iter (S k) (advance true action) cp))
                        (seq 0 n),
          ys ++ later_rows true action cp n).
Proof.
  induction n as [|n IH]; intros cp losses ys.
  - cbn. now rewrite !app_nil_r.
  - cbn [project_loss_loop]. fold (advance true action cp).
    rewrite loss_of_row. cbn [bind]. rewrite IH, later_rows_succ.
    rewrite <- !app_assoc. cbn [app]. do 3 f_equal.
    cbn [seq map]. f_equal.
    rewrite <- seq_shift, map_map. apply map_ext. intros k.
    f_equal. apply (iter_shift (advance true action) (S k)).
Qed.


Lemma later_rows_nth (remap : bool) (action : R) (cp : CartPole) (n m : nat) :
  (m < n)%nat ->
  nth m (later_rows remap action cp n) []
  = row (Nat.iter (S m) (advance remap action) cp) action.
Proof.
  intros Hm. unfold later_rows.
  set (f := fun k => row (Nat.iter (S k) (advance remap action) cp) action).
  rewrite (nth_indep _ [] (f 0%nat)) by (rewrite length_map, length_seq; lia).
  rewrite (map_nth f), seq_nth by lia. reflexivity.
Qed.

(** The rows of the trajectory of [project_loss] are what [move_cart]
    returns with [remap_angle=True]: row [k] is the result of a rollout of
    [k] steps, for every [k] that [move_cart] accepts. *)
Theorem project_loss_rows (x v th w action : R) (steps k : Z) :
  (1 <= k <= steps)%Z -> k <> 4%Z ->
  let initial_x := [x; v; th; w; action] in
  exists (losses : list R) (ys : list (list R)),
    project_loss initial_x steps = Ok (losses, ys) /\
    move_cart initial_x k true = Ok (Arr1 (nth (Z.to_nat k) ys [])).
Proof.
  intros Hk H4 initial_x. unfold project_loss, initial_x.
  change [x; v; th; w; action] with (row (with_state init x v th w) action).
  rewrite loss_of_row. cbn [bind]. rewrite project_loss_loop_value.
  do 2 eexists. split; [reflexivity|].
  unfold row at 1 2. cbn [cart_location cart_velocity pole_angle pole_velocity
                           with_state].
  rewrite move_cart_value.
  apply Z.eqb_neq in H4. rewrite H4.
  destruct (Z.to_nat k) as [|m] eqn:Em; [lia|].
  cbn [app nth]. rewrite later_rows_nth by lia. reflexivity.
Qed.

Lemma project_loss_rows_witness :
  exists (losses : list R) (ys : list (list R)),
    project_loss [0; 0; 3; 0; 1] 6 = Ok (losses, ys) /\
    move_cart [0; 0; 3; 0; 1] 5 true = Ok (Arr1 (nth (Z.to_nat 5) ys [])).
Proof. apply (project_loss_rows 0 0 3 0 1 6 5); lia. Defined.

End ProjectLossFacts.

(** ** Properties of the policies *)

Module PolicyFacts.
Import Numpy Policy.

Section FourByFour.

Variables w11 w12 w13 w14 w21 w22 w23 w24 : R.
Variables w31 w32 w33 w34 w41 w42 w43 w44 : R.

Local Notation M4 :=
  [[w11; w12; w13; w14]; [w21; w22; w23; w24];
   [w31; w32; w33; w34]; [w41; w42; w43; w44]].

(** On 4-vectors and a 4 x 4 matrix the exponent is
    [exp(-0.5 * d W d^T)] with [d] the difference of the two points. *)
Lemma policy_exponent_value (x1 x2 x3 x4 c1 c2 c3 c4 : R) :
  policy_exponent [x1; x2; x3; x4] [c1; c2; c3; c4] (Arr2 M4)
  = Ok (exp (- 0.5 * form4 [x1 - c1; x2 - c2; x3 - c3; x4 - c4] M4)).
Proof. reflexivity. Qed.

(** [policy_exponent] does not change when its two points are exchanged,
    it is 1 when they coincide, and a fifth component (the action) of
    either point is dropped before the difference is taken. *)
Theorem policy_exponent_symmetric (x1 x2 x3 x4 c1 c2 c3 c4 a a' : R) :
  let X := [x1; x2; x3; x4] in
  let X_i := [c1; c2; c3; c4] in
  policy_exponent X X_i (Arr2 M4) = policy_exponent X_i X (Arr2 M4) /\
  policy_exponent X X (Arr2 M4) = Ok 1 /\
  policy_exponent (X ++ [a]) (X_i ++ [a']) (Arr2 M4)
  = policy_exponent X X_i (Arr2 M4).
Proof.
  intros X X_i. unfold X, X_i.
  split; [|split; [|reflexivity]].
  - rewrite !policy_exponent_value.
    do 3 f_equal. unfold form4, dot, np_sum. cbn. ring.
  - rewrite policy_exponent_value.
    f_equal. rewrite <- exp_0. f_equal. unfold form4, dot, np_sum. cbn. ring.
Qed.

(** A matrix handed over as a flat array of 16 numbers (as a numerical
    optimiser does) makes the first product fail; the [except] branch
    reshapes it and the result is that of the 4 x 4 matrix. *)
Theorem policy_exponent_flat_W (X X_i : list R) :
  length (drop_action X) = 4%nat -> length (drop_action X_i) = 4%nat ->
  policy_exponent X X_i (Arr1 (concat M4)) = policy_exponent X X_i (Arr2 M4).
Proof.
  intros HX HXi. unfold policy_exponent.
  destruct (drop_action X) as [|x1 [|x2 [|x3 [|x4 [|? ?]]]]];
    try discriminate HX.
  destruct (drop_action X_i) as [|c1 [|c2 [|c3 [|c4 [|? ?]]]]];
    try discriminate HXi.
  reflexivity.
Qed.

(** With [W = W_^T W_], the form [d W d^T] is the squared length of
    [W_ d]. *)
Lemma form4_gram (d1 d2 d3 d4 : R) :
  let d := [d1; d2; d3; d4] in
  form4 d (mat_mul (transpose 0 M4) M4)
  = dot [w11; w12; w13; w14] d ^ 2 + dot [w21; w22; w23; w24] d ^ 2
    + dot [w31; w32; w33; w34] d ^ 2 + dot [w41; w42; w43; w44] d ^ 2.
Proof. unfold form4, mat_mul, dot, np_sum. cbn. ring. Qed.

(** The exponent of one basis point when [W = W_^T W_], as
    [loss_after_steps] builds it: a number in (0, 1]. *)
Lemma policy_exponent_gram (x1 x2 x3 x4 : R) (X_i : list R) :
  length X_i = 4%nat ->
  exists e : R,
    policy_exponent [x1; x2; x3; x4] X_i
                    (Arr2 (mat_mul (transpose 0 M4) M4)) = Ok e /\
    0 < e <= 1.
Proof.
  intros HXi.
  destruct X_i as [|c1 [|c2 [|c3 [|c4 [|? ?]]]]]; try discriminate HXi.
  pose proof (form4_gram (x1 - c1) (x2 - c2) (x3 - c3) (x4 - c4)) as E.
  cbv zeta in E.
  exists (exp (- 0.5 * form4 [x1 - c1; x2 - c2; x3 - c3; x4 - c4]
                            (mat_mul (transpose 0 M4) M4))).
  split; [reflexivity|].
  rewrite E. split; [apply exp_pos|].
  set (d := [x1 - c1; x2 - c2; x3 - c3; x4 - c4]).
  pose proof (pow2_ge_0 (dot [w11; w12; w13; w14] d)).
  pose proof (pow2_ge_0 (dot [w21; w22; w23; w24] d)).
  pose proof (pow2_ge_0 (dot [w31; w32; w33; w34] d)).
  pose proof (pow2_ge_0 (dot [w41; w42; w43; w44] d)).
  set (q := _ + _ + _ + _).
  assert (Hq : 0 <= q) by (unfold q; lra).
  destruct (Req_dec q 0) as [->|Hne].
  - rewrite Rmult_0_r, exp_0. lra.
  - left. rewrite <- exp_0. apply exp_increasing. lra.
Qed.

End FourByFour.

Lemma policy_exponent_flat_W_witness :
  policy_exponent [1; 2; 3; 4; 9] [0; 0; 0; 0]
    (Arr1 (concat [[1; 0; 0; 0]; [0; 1; 0; 0]; [0; 0; 1; 0]; [0; 0; 0; 1]]))
  = policy_exponent [1; 2; 3; 4; 9] [0; 0; 0; 0]
    (Arr2 [[1; 0; 0; 0]; [0; 1; 0; 0]; [0; 0; 1; 0]; [0; 0; 0; 1]]).
Proof.
  apply (policy_exponent_flat_W 1 0 0 0 0 1 0 0 0 0 1 0 0 0 0 1
           [1; 2; 3; 4; 9] [0; 0; 0; 0]); reflexivity.
Defined.

End PolicyFacts.

(** ** Properties of [non_linear_policy] *)

Module PolicySum.
Import Numpy Policy PolicyFacts.

(** One term of the sum, for a weight and a basis point. *)
Lemma terms_by_pairs (X : list R) (W : ndarray) (w_i : list R) :
  forall X_i_vals : list (list R),
    length w_i = length X_i_vals ->
    map (fun i => match nth_error X_i_vals i with
                  | None => Raise IndexError
                  | Some X_i => e <- policy_exponent X X_i W ;;
                                Ok (nth i w_i 0 * e)
                  end) (seq 0 (length w_i))
    = zip_with (fun w X_i => e <- policy_exponent X X_i W ;; Ok (w * e))
               w_i X_i_vals.
Proof.
  induction w_i as [|w ws IH]; intros [|X_i Xs] Hl; try discriminate Hl.
  - reflexivity.
  - injection Hl as Hl. cbn [length seq map zip_with nth_error nth].
    f_equal. rewrite <- seq_shift, map_map. rewrite <- (IH Xs Hl).
    apply map_ext. intros i. reflexivity.
Qed.

Lemma sum_terms_bounded (X : list R) (W : ndarray) (w_i : list R) :
  forall X_i_vals : list (list R),
    length w_i = length X_i_vals ->
    Forall (fun X_i => exists e, policy_exponent X X_i W = Ok e /\ 0 < e <= 1)
           X_i_vals ->
    exists terms : list R,
      sequence (zip_with (fun w X_i => e <- policy_exponent X X_i W ;;
                                       Ok (w * e)) w_i X_i_vals) = Ok terms /\
      Rabs (np_sum terms) <= np_sum (map Rabs w_i).
Proof.
  induction w_i as [|w ws IH]; intros [|X_i Xs] Hl HX; try discriminate Hl.
  - exists []. split; [reflexivity|]. cbn. rewrite Rabs_R0. lra.
  - injection Hl as Hl. inversion HX as [|? ? (e & He & Hpos & Hle) HXs]; subst.
    destruct (IH Xs Hl HXs) as (terms & Ht & Hb).
    exists (w * e :: terms). split.
    + cbn [zip_with sequence]. rewrite He. cbn [bind]. rewrite Ht. reflexivity.
    + cbn [np_sum fold_right map]. fold (np_sum terms).
      fold (np_sum (map Rabs ws)).
      eapply Rle_trans; [apply Rabs_triang|].
      rewrite Rabs_mult, (Rabs_pos_eq e) by lra.
      pose proof (Rabs_pos w). nra.
Qed.

(** With [W = W_^T W_] (the matrix that [loss_after_steps] builds from the
    optimiser's array), as many basis points as weights and 4-component
    points, the control computed by [non_linear_policy] is bounded by the
    sum of the magnitudes of the weights. *)
Theorem non_linear_policy_bounded
    (w11 w12 w13 w14 w21 w22 w23 w24 w31 w32 w33 w34 w41 w42 w43 w44 : R)
    (w_i : list R) (x1 x2 x3 x4 : R) (X_i_vals : list (list R)) :
  length w_i = length X_i_vals ->
  Forall (fun X_i => length X_i = 4%nat) X_i_vals ->
  let W_ := [[w11; w12; w13; w14]; [w21; w22; w23; w24];
             [w31; w32; w33; w34]; [w41; w42; w43; w44]] in
  exists u : R,
    non_linear_policy w_i [x1; x2; x3; x4] X_i_vals
                      (Arr2 (mat_mul (transpose 0 W_) W_)) = Ok u /\
    Rabs u <= np_sum (map Rabs w_i).
Proof.
  intros Hl H4 W_. unfold non_linear_policy.
  rewrite terms_by_pairs by exact Hl.
  destruct (sum_terms_bounded [x1; x2; x3; x4]
              (Arr2 (mat_mul (transpose 0 W_) W_)) w_i X_i_vals Hl)
    as (terms & Ht & Hb).
  - revert H4. apply Forall_impl. intros X_i HX.
    now apply policy_exponent_gram.
  - exists (np_sum terms). rewrite Ht. split; [reflexivity|exact Hb].
Qed.

Lemma non_linear_policy_bounded_witness :
  exists u : R,
    non_linear_policy [3; -2] [0; 0; 1; 0] [[0; 0; 0; 0]; [1; 1; 1; 1]]
      (Arr2 (mat_mul (transpose 0 [[1; 0; 0; 0]; [0; 1; 0; 0];
                                   [0; 0; 1; 0]; [0; 0; 0; 1]])
                     [[1; 0; 0; 0]; [0; 1; 0; 0];
                      [0; 0; 1; 0]; [0; 0; 0; 1]])) = Ok u /\
    Rabs u <= np_sum (map Rabs [3; -2]).
Proof.
  apply (non_linear_policy_bounded 1 0 0 0 0 1 0 0 0 0 1 0 0 0 0 1
           [3; -2] 0 0 1 0 [[0; 0; 0; 0]; [1; 1; 1; 1]]);
    [reflexivity|repeat constructor].
Defined.

Lemma sequence_app_raise {A : Type} (pre post : list (result A)) (e : exn)
    (l : list A) :
  sequence pre = Ok l -> sequence (pre ++ Raise e :: post) = Raise e.
Proof.
  revert l. induction pre as [|[a|e'] pre IH]; intros l H.
  - reflexivity.
  - cbn [app sequence bind] in *.
    destruct (sequence pre) as [l'|e'] eqn:E; [|discriminate H].
    now rewrite (IH l' eq_refl).
  - discriminate H.
Qed.

(** Too few basis points for the weights: the index runs past the rows of
    [X_i_vals]. *)
Theorem non_linear_policy_missing_point (w_i X : list R)
    (X_i_vals : list (list R)) (W : ndarray) :
  (length X_i_vals < length w_i)%nat ->
  Forall (fun X_i => exists e, policy_exponent X X_i W = Ok e) X_i_vals ->
  non_linear_policy w_i X X_i_vals W = Raise IndexError.
Proof.
  intros Hl Hok. unfold non_linear_policy.
  set (f := fun i => match nth_error X_i_vals i with
                     | None => Raise IndexError
                     | Some X_i => e <- policy_exponent X X_i W ;;
                                   Ok (nth i w_i 0 * e)
                     end).
  assert (Hseq : forall k n, (k + n <= length X_i_vals)%nat ->
            exists l, sequence (map f (seq k n)) = Ok l).
  { intros k n. revert k. induction n as [|n IH]; intros k Hk.
    - exists []. reflexivity.
    - cbn [seq map sequence].
      destruct (nth_error X_i_vals k) as [X_i|] eqn:E;
        [|apply nth_error_None in E; lia].
      rewrite Forall_forall in Hok.
      destruct (Hok X_i (nth_error_In _ _ E)) as [e He].
      destruct (IH (S k)) as [l Hl']; [lia|].
      exists (nth k w_i 0 * e :: l). unfold f at 1. rewrite E, He. cbn [bind].
      now rewrite Hl'. }
  replace (length w_i) with (length X_i_vals + S (length w_i - length X_i_vals - 1))%nat
    by lia.
  rewrite seq_app, map_app. cbn [seq map].
  destruct (Hseq 0%nat (length X_i_vals)) as [l Hl0]; [lia|].
  assert (Hf : f (0 + length X_i_vals)%nat = Raise IndexError).
  { unfold f. cbn [Nat.add].
    now rewrite (proj2 (nth_error_None X_i_vals (length X_i_vals)) (le_n _)). }
  rewrite Hf, (sequence_app_raise _ _ _ _ Hl0). reflexivity.
Qed.

Lemma non_linear_policy_missing_point_witness :
  non_linear_policy [1; 1] [0; 0; 0; 0] [[0; 0; 0; 0]]
    (Arr2 [[1; 0; 0; 0]; [0; 1; 0; 0]; [0; 0; 1; 0]; [0; 0; 0; 1]])
  = Raise IndexError.
Proof.
  apply non_linear_policy_missing_point; [simpl; lia|].
  repeat constructor. eexists. reflexivity.
Defined.

End PolicySum.

(** ** Properties of [loss_after_steps] *)

Module PolicyLossFacts.
Import Numpy Physics Rollout RolloutFacts PolicyLoss.






End PolicyLossFacts.

(** ** Further properties of [generate_K] and [train_alpha] *)

Module RegressionMore.
Import Numpy Kernel Regression NormalEquations RegressionFacts.





Lemma sequence_index_error {A : Type} (l : list (result A)) :
  Forall (fun r => (exists a, r = Ok a) \/ r = Raise IndexError) l ->
  Exists (fun r => r = Raise IndexError) l ->
  sequence l = Raise IndexError.
Proof.
  induction 1 as [|r l Hr Hl IH]; intros Hex; [inversion Hex|].
  cbn [sequence]. destruct Hr as [[a ->]| ->]; [|reflexivity].
  cbn [bind]. inversion Hex as [? ? E|? ? Hex']; subst; [discriminate E|].
  now rewrite (IH Hex').
Qed.

(** A basis index that is not a row of the training set stops
    [train_alpha] at [x_train[M_vals]]; an empty draw ([no_RBC = 0]) stops
    it in [generate_K], whose loop over the basis points never runs. *)
Theorem train_alpha_bad_draw
    (solve : list (list R) -> list (list R) -> list (list R))
    (x_train y_train : list (list R)) (M_vals : list nat) (sigma : list R)
    (lam : R) :
  (Exists (fun i => (length x_train <= i)%nat) M_vals ->
   train_alpha kernel solve x_train y_train M_vals sigma lam
   = Raise IndexError) /\
  (Forall (fun r => length r = 5%nat) x_train -> length sigma = 5%nat ->
   train_alpha kernel solve x_train y_train [] sigma lam
   = Raise UnboundLocalError).
Proof.
  split.
  - intros Hex. unfold train_alpha, take_rows.
    rewrite sequence_index_error; [reflexivity| |].
    + apply Forall_map, Forall_forall. intros i _.
      destruct (nth_error x_train i); eauto.
    + apply Exists_exists in Hex. destruct Hex as (i & Hi & Hge).
      apply Exists_exists. exists (Raise IndexError). split; [|reflexivity].
      apply in_map_iff. exists i. split; [|exact Hi].
      now rewrite (proj2 (nth_error_None x_train i) Hge).
  - intros Hx Hs. unfold train_alpha. cbn [take_rows map sequence bind].
    rewrite (generate_K_matrix sigma [] Hs (Forall_nil _) x_train []
               eq_refl Hx).
    destruct x_train as [|x1 [|x2 X']]; reflexivity.
Qed.

Lemma train_alpha_bad_draw_witness :
  train_alpha kernel (fun A B => B) [[0; 0; 0; 0; 0]; [1; 1; 1; 1; 1]]
              [[1; 2; 3; 4]; [5; 6; 7; 8]] [0%nat; 2%nat] [1; 1; 1; 1; 1] 0
  = Raise IndexError /\
  train_alpha kernel (fun A B => B) [[0; 0; 0; 0; 0]; [1; 1; 1; 1; 1]]
              [[1; 2; 3; 4]; [5; 6; 7; 8]] [] [1; 1; 1; 1; 1] 0
  = Raise UnboundLocalError.
Proof.
  split.
  - apply (proj1 (train_alpha_bad_draw (fun A B => B)
                    [[0; 0; 0; 0; 0]; [1; 1; 1; 1; 1]]
                    [[1; 2; 3; 4]; [5; 6; 7; 8]] [0%nat; 2%nat]
                    [1; 1; 1; 1; 1] 0)).
    apply Exists_cons_tl, Exists_cons_hd. simpl. lia.
  - apply (proj2 (train_alpha_bad_draw (fun A B => B)
                    [[0; 0; 0; 0; 0]; [1; 1; 1; 1; 1]]
                    [[1; 2; 3; 4]; [5; 6; 7; 8]] []
                    [1; 1; 1; 1; 1] 0)); repeat constructor.
Defined.

End RegressionMore.

(** ** What [predict] computes *)

Module PredictMore.
Import Numpy Kernel Predict RegressionFacts NormalEquations.

Lemma holds_app (h fresh : store) (l : loc) (o : pyobj) :
  holds h l o -> holds (h ++ fresh) l o.
Proof.
  unfold holds. intros H. rewrite nth_error_app1; [exact H|].
  apply nth_error_Some. congruence.
Qed.

Lemma holds_last (h : store) (o : pyobj) : holds (h ++ [o]) (length h) o.
Proof.
  unfold holds. rewrite nth_error_app2 by lia. now rewrite Nat.sub_diag.
Qed.

Lemma load_holds (h : store) (l : loc) (o : pyobj) :
  holds h l o -> load l h = (Ok o, h).
Proof. unfold holds, load. now intros ->. Qed.

Lemma load_floats_holds (h : store) (l : loc) (a : ndarray) :
  holds h l (Nd a) -> is_object a = false -> load_floats l h = (Ok a, h).
Proof.
  intros H Ha. unfold load_floats, bindM. rewrite (load_holds _ _ _ H).
  destruct a; try reflexivity. discriminate Ha.
Qed.

Lemma load_sigma_holds (h : store) (l : loc) (s : list R) :
  holds h l (Nd (Arr1 s)) -> load_sigma l h = (Ok s, h).
Proof.
  intros H. unfold load_sigma, bindM.
  now rewrite (load_floats_holds _ _ _ H eq_refl).
Qed.

Lemma bindM_step {A B : Type} (c : M A) (k : A -> M B) (h h' : store) (a : A) :
  c h = (Ok a, h') -> bindM c k h = k a h'.
Proof. unfold bindM. now intros ->. Qed.

Ltac run E := erewrite bindM_step; [|apply E]; cbv beta iota.

Section SingleQuery.

Variables (x_test sigma : loc) (x s : list R).
Hypothesis x_five : length x = 5%nat.
Hypothesis s_five : length s = 5%nat.

Local Notation inputs := (query_inputs x_test sigma x s).










End SingleQuery.


Lemma bindM_raise {A B : Type} (c : M A) (k : A -> M B) (h h' : store)
    (e : exn) :
  c h = (Raise e, h') -> bindM c k h = (Raise e, h').
Proof. unfold bindM. now intros ->. Qed.

Ltac stop E := erewrite bindM_raise; [reflexivity|apply E].

(** Queries that [predict] refuses, whatever the weights: with at least one
    basis point, a 1-d query of at most four components leaves
    [KnM_test_row] unbound or makes the kernel fail, and a longer one whose
    size is not a multiple of five fails the assertion. *)
Theorem predict_rejects_query (x_test alpha X_i_vals sigma : loc)
    (x s b : list R) (bs : list (list R)) (h : store) :
  holds h x_test (Nd (Arr1 x)) -> holds h sigma (Nd (Arr1 s)) ->
  holds h X_i_vals (Nd (Arr2 (b :: bs))) ->
  ((length x <= 4)%nat ->
   fst (predict kernel x_test alpha X_i_vals sigma h)
   = Raise UnboundLocalError) /\
  ((4 < length x)%nat -> (length x mod 5 <> 0)%nat ->
   fst (predict kernel x_test alpha X_i_vals sigma h)
   = Raise AssertionError).
Proof.
  intros Hx Hs Hb.
  set (h1 := h ++ [NoneList]).
  assert (Hx1 : holds h1 x_test (Nd (Arr1 x))) by now apply holds_app.
  assert (Hs1 : holds h1 sigma (Nd (Arr1 s))) by now apply holds_app.
  split.
  - intros Hlen. unfold predict.
    run (eq_refl (alloc NoneList h)).
    run (load_floats_holds h1 X_i_vals (Arr2 (b :: bs))
           (holds_app _ _ _ _ Hb) eq_refl).
    run (eq_refl (lift (items (Arr2 (b :: bs))) h1)).
    cbn [map predict_loop].
    destruct (Nat.eq_dec (length x) 4) as [E4|N4].
    + erewrite bindM_raise; [reflexivity|].
      erewrite bindM_raise; [reflexivity|].
      unfold bind_row.
      run (load_floats_holds h1 x_test (Arr1 x) Hx1 eq_refl).
      cbn [np_size]. rewrite E4. cbn [Nat.ltb Nat.leb Nat.eqb].
      run (eq_refl (ret (A := loc) x_test h1)).
      run (load_floats_holds h1 x_test (Arr1 x) Hx1 eq_refl).
      run (load_sigma_holds h1 sigma s Hs1).
      erewrite bindM_raise; [reflexivity|].
      unfold lift, kernel_item. rewrite KernelMore.kernel_short by lia.
      reflexivity.
    + erewrite bindM_raise; [reflexivity|].
      erewrite bindM_step.
      2:{ unfold bind_row.
          run (load_floats_holds h1 x_test (Arr1 x) Hx1 eq_refl).
          cbn [np_size].
          replace (Nat.ltb 4 (length x)) with false
            by (symmetry; apply Nat.ltb_ge; lia).
          replace (Nat.eqb (length x) 4) with false
            by (symmetry; apply Nat.eqb_neq; exact N4).
          reflexivity. }
      erewrite bindM_raise; reflexivity.
  - intros Hlen Hmod. unfold predict.
    run (eq_refl (alloc NoneList h)).
    run (load_floats_holds h1 X_i_vals (Arr2 (b :: bs))
           (holds_app _ _ _ _ Hb) eq_refl).
    run (eq_refl (lift (items (Arr2 (b :: bs))) h1)).
    cbn [map predict_loop].
    erewrite bindM_raise; [reflexivity|].
    erewrite bindM_raise; [reflexivity|].
    unfold bind_row.
    run (load_floats_holds h1 x_test (Arr1 x) Hx1 eq_refl).
    cbn [np_size].
    replace (Nat.ltb 4 (length x)) with true
      by (symmetry; apply Nat.ltb_lt; lia).
    replace (Nat.eqb (length x mod 5) 0) with false
      by (symmetry; apply Nat.eqb_neq; exact Hmod).
    reflexivity.
Qed.

Lemma predict_rejects_query_witness :
  fst (predict kernel 4%nat 1%nat 2%nat 3%nat
               (h0 ++ [Nd (Arr1 [0; 0; 3; 0])]))
  = Raise UnboundLocalError.
Proof.
  apply (proj1 (predict_rejects_query 4%nat 1%nat 2%nat 3%nat
                  [0; 0; 3; 0] [1; 1; 1; 1; 1] [0; 0; 0; 0; 0]
                  [[1; 1; 1; 1; 1]] (h0 ++ [Nd (Arr1 [0; 0; 3; 0])])
                  eq_refl eq_refl eq_refl)).
  simpl. lia.
Defined.

(** Without any basis point the loop of [predict] does not run and
    [KnM_test] is still the list [[None, None]], which has no transpose. *)
Theorem predict_empty_basis (x_test alpha X_i_vals sigma : loc) (h : store) :
  holds h X_i_vals (Nd (Arr2 [])) ->
  fst (predict kernel x_test alpha X_i_vals sigma h) = Raise AttributeError.
Proof.
  intros Hb. unfold predict.
  run (eq_refl (alloc NoneList h)).
  run (load_floats_holds (h ++ [NoneList]) X_i_vals (Arr2 [])
         (holds_app _ _ _ _ Hb) eq_refl).
  run (eq_refl (lift (items (Arr2 [])) (h ++ [NoneList]))).
  cbn [map predict_loop].
  run (eq_refl (ret (A := locals) (x_test, length h, None) (h ++ [NoneList]))).
  run (load_holds (h ++ [NoneList]) (length h) NoneList (holds_last h NoneList)).
  reflexivity.
Qed.

Lemma predict_empty_basis_witness :
  fst (predict kernel 0%nat 1%nat 4%nat 3%nat (h0 ++ [Nd (Arr2 [])]))
  = Raise AttributeError.
Proof.
  apply (predict_empty_basis 0%nat 1%nat 4%nat 3%nat (h0 ++ [Nd (Arr2 [])])).
  reflexivity.
Defined.

End PredictMore.

(** ** Properties of [project_x_using_model] *)

Module ProjectionFacts.
Import Numpy Physics Rollout RolloutFacts Projection RegressionFacts.

Lemma row_length (c : CartPole) (action : R) : length (row c action) = 5%nat.
Proof. reflexivity. Qed.

Lemma last_cons_default {A : Type} (l : list A) :
  forall a d : A, last (a :: l) d = last l a.
Proof.
  induction l as [|b l IH]; intros a d; [reflexivity|].
  change (last (a :: b :: l) d) with (last (b :: l) d).
  now rewrite !IH.
Qed.

Section DeltaModel.

Variable model : ndarray -> result ndarray.
Variable delta : list R -> list R.
Hypothesis model_delta : forall v, model (Arr1 v) = Ok (Arr1 (delta v)).
Hypothesis delta_five : forall v, length v = 5%nat -> length (delta v) = 5%nat.

Lemma add_delta (v : list R) :
  length v = 5%nat ->
  np_add (Arr1 v) (Arr1 (delta v)) = Ok (Arr1 (zip_with Rplus v (delta v))) /\
  length (zip_with Rplus v (delta v)) = 5%nat.
Proof.
  intros Hv. pose proof (delta_five v Hv) as Hd. split.
  - cbn [np_add]. unfold broadcast. rewrite Hv, Hd. reflexivity.
  - rewrite EvaluationFacts.zip_with_length; congruence.
Qed.

(** A pass of the loop once the histories are bound. *)
Lemma project_step_bound (remap compound : bool) (initial_x : list R)
    (action : R) (c : CartPole) (p r0 q0 : list R) (P Y : list (list R)) :
  length p = 5%nat -> length r0 = 5%nat -> length q0 = 5%nat ->
  let start := if compound then p else row c action in
  let p' := zip_with Rplus start (delta start) in
  project_step model remap compound initial_x action
    (mkLocals c (Some (Arr1 p)) (Some (Arr2 (r0 :: P))) (Some (Arr2 (q0 :: Y))))
  = Ok (mkLocals (advance remap action c) (Some (Arr1 p'))
                 (Some (Arr2 ((r0 :: P) ++ [p'])))
                 (Some (Arr2 ((q0 :: Y) ++ [row (advance remap action c)
                                                action])))).
Proof.
  intros Hp Hr Hq start p'.
  assert (Hs : length start = 5%nat) by (unfold start; now destruct compound).
  destruct (add_delta start Hs) as [Hadd Hlen].
  unfold project_step. cbn [cp pred_ prediction_history y_history].
  fold (advance remap action c).
  assert (E : (if compound
               then delta0 <- model (Arr1 p) ;; r <- np_add (Arr1 p) delta0 ;;
                    Ok (Some r)
               else delta0 <- model (Arr1 (row c action)) ;;
                    r <- np_add (Arr1 (row c action)) delta0 ;; Ok (Some r))
              = Ok (Some (Arr1 p'))).
  { unfold p', start in *. destruct compound;
      rewrite model_delta; cbn [bind]; rewrite Hadd; reflexivity. }
  rewrite E. cbn [bind].
  rewrite (vstack_more r0 P p') by (unfold p'; congruence).
  rewrite (vstack_more q0 Y (row (advance remap action c) action))
    by (rewrite row_length; exact Hq).
  reflexivity.
Qed.

Lemma predictions_five (n : nat) (remap compound : bool) (action : R) :
  forall c p, length p = 5%nat ->
    Forall (fun r => length r = 5%nat)
           (predictions delta n remap compound action c p) /\
    length (predictions delta n remap compound action c p) = n.
Proof.
  induction n as [|n IH]; intros c p Hp; [split; [constructor|reflexivity]|].
  cbn [predictions].
  set (start := if compound then p else row c action).
  assert (Hs : length start = 5%nat) by (unfold start; now destruct compound).
  destruct (add_delta start Hs) as [_ Hlen].
  destruct (IH (advance remap action c) _ Hlen) as [IH1 IH2].
  split; [constructor; assumption|cbn; now rewrite IH2].
Qed.

Lemma project_loop_bound (n : nat) (remap compound : bool)
    (initial_x : list R) (action : R) :
  forall (c : CartPole) (p r0 q0 : list R) (P Y : list (list R)),
    length p = 5%nat -> length r0 = 5%nat -> length q0 = 5%nat ->
    project_loop model n remap compound initial_x action
      (mkLocals c (Some (Arr1 p)) (Some (Arr2 (r0 :: P)))
                (Some (Arr2 (q0 :: Y))))
    = Ok (mkLocals
            (Nat.iter n (advance remap action) c)
            (Some (Arr1 (last (predictions delta n remap compound action c p)
                              p)))
            (Some (Arr2 ((r0 :: P)
                         ++ predictions delta n remap compound action c p)))
            (Some (Arr2 ((q0 :: Y) ++ later_rows remap action c n)))).
Proof.
  induction n as [|n IH]; intros c p r0 q0 P Y Hp Hr Hq.
  - cbn. now rewrite !app_nil_r.
  - cbn [project_loop].
    rewrite (project_step_bound remap compound initial_x action c p r0 q0 P Y
               Hp Hr Hq). cbn [bind].
    set (start := if compound then p else row c action).
    set (p' := zip_with Rplus start (delta start)).
    assert (Hs : length start = 5%nat) by (unfold start; now destruct compound).
    destruct (add_delta start Hs) as [_ Hlen]. fold p' in Hlen.
    cbn [app]. rewrite (IH (advance remap action c) p' r0 q0 _ _ Hlen Hr Hq).
    rewrite later_rows_succ, iter_shift. cbn [predictions].
    fold start. fold p'. rewrite last_cons_default.
    cbn [app]. rewrite <- !app_assoc. reflexivity.
Qed.

Lemma project_x_value (x v th w action : R) (n : nat)
    (remap compound : bool) :
  let initial_x := [x; v; th; w; action] in
  let c := with_state init x v th w in
  project_x_using_model model initial_x (Z.of_nat (S n)) remap compound
  = Ok (Arr2 (initial_x
              :: predictions delta (S n) remap compound action c initial_x),
        Arr2 (initial_x :: later_rows remap action c (S n))).
Proof.
  intros initial_x c.
  unfold project_x_using_model, initial_x. fold c.
  rewrite Nat2Z.id.
  cbn [project_loop]. unfold project_step at 1.
  cbn [cp pred_ prediction_history y_history bind]. fold (advance remap action c).
  unfold restart. change (row c action) with initial_x.
  rewrite Bool.eqb_reflx, model_delta. cbn [bind].
  destruct (add_delta initial_x eq_refl) as [Hadd Hlen].
  rewrite Hadd. cbn [bind].
  rewrite vstack_two by (rewrite Hlen; reflexivity).
  rewrite vstack_two by reflexivity. cbn [bind].
  rewrite (project_loop_bound n remap compound initial_x action
             (advance remap action c) _ initial_x initial_x _ _ Hlen
             eq_refl eq_refl).
  cbn [bind prediction_history y_history app].
  rewrite later_rows_succ. cbn [predictions].
  destruct compound; reflexivity.
Qed.

(** With a model that answers a 5-vector [x] by a 5-vector [delta x],
    [project_x_using_model] returns for [steps >= 1] two arrays of
    [steps + 1] rows that both start with [initial_x]: the true trajectory
    (the rows that [move_cart] goes through) and the predictions, each
    obtained by adding the model's answer to the true state of the step
    before or, in compound mode, to the previous prediction.  With
    [steps = 0] nothing is bound and the function raises. *)
Theorem project_x_histories (x v th w action : R) (steps : Z)
    (remap compound : bool) :
  let initial_x := [x; v; th; w; action] in
  let c := with_state init x v th w in
  let n := Z.to_nat steps in
  (1 <= steps)%Z ->
  project_x_using_model model initial_x steps remap compound
  = Ok (Arr2 (initial_x
              :: predictions delta n remap compound action c initial_x),
        Arr2 (initial_x :: later_rows remap action c n)) /\
  length (predictions delta n remap compound action c initial_x) = n /\
  project_x_using_model model initial_x 0 remap compound
  = Raise UnboundLocalError.
Proof.
  intros initial_x c n Hsteps.
  split; [|split; [|reflexivity]].
  2:{ now apply predictions_five. }
  destruct n as [|m] eqn:En; [lia|].
  replace steps with (Z.of_nat (S m)) by lia.
  apply project_x_value.
Qed.

(** A model that is exact on the states of cart-poles with the default
    constants: adding its answer to a state gives the state one step
    later. *)
Lemma exact_predictions (remap compound : bool) (action : R) (n : nat) :
  (forall c, same_constants init c ->
     zip_with Rplus (row c action) (delta (row c action))
     = row (advance remap action c) action) ->
  forall c, same_constants init c ->
    predictions delta n remap compound action c (row c action)
    = later_rows remap action c n.
Proof.
  intros Hexact. induction n as [|n IH]; intros c Hc; [reflexivity|].
  cbn [predictions].
  replace (if compound then row c action else row c action)
    with (row c action) by (now destruct compound).
  rewrite (Hexact c Hc), later_rows_succ. f_equal.
  apply IH. eapply PhysicsMore.same_constants_trans; [exact Hc|].
  apply RolloutMore.advance_constants.
Qed.

(** If the model reproduces the physics exactly, the predicted trajectory
    is the true one, in single-step and in compound mode alike. *)
Theorem project_x_exact_model (x v th w action : R) (steps : Z)
    (remap compound : bool) :
  (forall c, same_constants init c ->
     zip_with Rplus (row c action) (delta (row c action))
     = row (advance remap action c) action) ->
  (1 <= steps)%Z ->
  let trajectory :=
    [x; v; th; w; action]
      :: later_rows remap action (with_state init x v th w) (Z.to_nat steps) in
  project_x_using_model model [x; v; th; w; action] steps remap compound
  = Ok (Arr2 trajectory, Arr2 trajectory).
Proof.
  intros Hexact Hsteps trajectory. unfold trajectory.
  destruct (Z.to_nat steps) as [|m] eqn:En; [lia|].
  replace steps with (Z.of_nat (S m)) by lia.
  rewrite project_x_value.
  change [x; v; th; w; action] with (row (with_state init x v th w) action).
  rewrite (exact_predictions remap compound action (S m) Hexact).
  - reflexivity.
  - unfold same_constants, with_state. cbn. tauto.
Qed.

End DeltaModel.

Lemma project_x_histories_witness :
  let model := fun a => match a with
                        | Arr1 v => Ok (Arr1 zero_delta)
                        | _ => Raise TypeError
                        end in
  let initial_x := [0; 0; 3; 0; 1] in
  let c := with_state init 0 0 3 0 in
  project_x_using_model model initial_x 3 false true
  = Ok (Arr2 (initial_x :: predictions (fun _ => zero_delta) (Z.to_nat 3)
                                       false true 1 c initial_x),
        Arr2 (initial_x :: later_rows false 1 c (Z.to_nat 3))) /\
  length (predictions (fun _ => zero_delta) (Z.to_nat 3) false true 1 c
                      initial_x) = Z.to_nat 3 /\
  project_x_using_model model initial_x 0 false true = Raise UnboundLocalError.
Proof.
  apply (project_x_histories
           (fun a => match a with
                     | Arr1 v => Ok (Arr1 zero_delta)
                     | _ => Raise TypeError
                     end)
           (fun _ => zero_delta) (fun _ => eq_refl) (fun _ _ => eq_refl)
           0 0 3 0 1 3 false true).
  lia.
Defined.

Lemma physics_delta_exact (remap : bool) (action : R) (c : CartPole) :
  same_constants init c ->
  zip_with Rplus (row c action) (physics_delta remap (row c action))
  = row (advance remap action c) action.
Proof.
  intros Hc. unfold physics_delta. cbn [row].
  rewrite (RolloutMore.with_state_of_fields c Hc).
  unfold row. cbn [zip_with].
  repeat (apply f_equal2; [ring|]). reflexivity.
Qed.

Lemma physics_delta_length (remap : bool) (v : list R) :
  length (physics_delta remap v) = 5%nat.
Proof.
  unfold physics_delta.
  destruct v as [|? [|? [|? [|? [|? [|? ?]]]]]]; reflexivity.
Qed.

Lemma project_x_exact_model_witness :
  let model := fun a => match a with
                        | Arr1 v => Ok (Arr1 (physics_delta true v))
                        | _ => Raise TypeError
                        end in
  let trajectory :=
    [0; 0; 3; 0; 1]
      :: later_rows true 1 (with_state init 0 0 3 0) (Z.to_nat 2) in
  project_x_using_model model [0; 0; 3; 0; 1] 2 true false
  = Ok (Arr2 trajectory, Arr2 trajectory).
Proof.
  apply (project_x_exact_model
           (fun a => match a with
                     | Arr1 v => Ok (Arr1 (physics_delta true v))
                     | _ => Raise TypeError
                     end)
           (physics_delta true) (fun _ => eq_refl)
           (fun v _ => physics_delta_length true v)
           0 0 3 0 1 2 true false).
  - intros c Hc. apply physics_delta_exact, Hc.
  - lia.
Defined.

End ProjectionFacts.

(** ** Facts about [generate_data] *)

Module DataGenerationFacts.
Import Numpy Physics Rollout DataGeneration.

Lemma to_array_length (smp : sample) : length (to_array smp) = 5%nat.
Proof. destruct smp as [[[[a b] c] d] e]. reflexivity. Qed.

Lemma moved_length (steps : Z) (remap : bool) (smp : sample) :
  length (moved steps remap (to_array smp)) = 5%nat.
Proof. destruct smp as [[[[a b] c] d] e]. reflexivity. Qed.

Lemma change_length (steps : Z) (remap : bool) (smp : sample) :
  length (change steps remap (to_array smp)) = 5%nat.
Proof. destruct smp as [[[[a b] c] d] e]. reflexivity. Qed.


Lemma move_cart_sample (steps : Z) (remap : bool) (smp : sample) :
  (1 <= steps)%Z -> steps <> 4%Z ->
  move_cart (to_array smp) steps remap
  = Ok (Arr1 (moved steps remap (to_array smp))).
Proof.
  intros H1 H4. destruct smp as [[[[a b] c] d] e].
  unfold to_array. rewrite RolloutFacts.move_cart_value.
  apply Z.eqb_neq in H4. rewrite H4.
  unfold moved.
  destruct (Z.to_nat steps) as [|k] eqn:E; [lia|reflexivity].
Qed.

Lemma move_cart_sample_fails (steps : Z) (remap : bool) (smp : sample) :
  (steps <= 0)%Z ->
  move_cart (to_array smp) steps remap = Raise UnboundLocalError.
Proof.
  intros H0. destruct smp as [[[[a b] c] d] e].
  unfold to_array. rewrite RolloutFacts.move_cart_value.
  assert (E4 : Z.eqb steps 4 = false) by (apply Z.eqb_neq; lia).
  rewrite E4.
  assert (E : Z.to_nat steps = 0%nat) by lia.
  rewrite E. reflexivity.
Qed.

Lemma change_sub (steps : Z) (remap : bool) (smp : sample) :
  np_sub (Arr1 (moved steps remap (to_array smp))) (Arr1 (to_array smp))
  = Ok (Arr1 (change steps remap (to_array smp))).
Proof.
  unfold np_sub, broadcast.
  rewrite moved_length, to_array_length. reflexivity.
Qed.

Lemma floats_back (m : list (list R)) :
  map (map float_of) (map (map Some) m) = m.
Proof.
  induction m as [|r m IH]; [reflexivity|].
  cbn [map]. rewrite IH. f_equal.
  induction r as [|x r IHr]; [reflexivity|].
  cbn [map float_of]. rewrite IHr. reflexivity.
Qed.

Lemma rows_of_pack (rows : list (list R)) :
  rows_of (pack rows) = map (map Some) rows.
Proof. destruct rows as [|r [|r' t]]; reflexivity. Qed.

Lemma is_object_pack (rows : list (list R)) : is_object (pack rows) = false.
Proof. destruct rows as [|r [|r' t]]; reflexivity. Qed.

(** Stacking one more row under a non-empty block of the same width. *)
Lemma vstack_pack (r : list R) (t : list (list R)) (x : list R) :
  length r = length x ->
  np_vstack (pack (r :: t)) (Arr1 x) = Ok (pack ((r :: t) ++ [x])).
Proof.
  intros Hl. unfold np_vstack.
  rewrite rows_of_pack, is_object_pack.
  cbn [rows_of width map is_object orb].
  rewrite !length_map, Hl, Nat.eqb_refl.
  change (map Some r :: map (map Some) t) with (map (map Some) (r :: t)).
  change [map Some x] with (map (map Some) [x]).
  rewrite <- map_app, floats_back.
  destruct t as [|r' t]; reflexivity.
Qed.

Lemma samples_succ (draw : nat -> sample) (n : nat) :
  samples draw (S n) = samples draw n ++ [to_array (draw (S n))].
Proof. unfold samples. rewrite seq_S, map_app. reflexivity. Qed.

Lemma samples_length (draw : nat -> sample) (n : nat) :
  length (samples draw n) = n.
Proof. unfold samples. rewrite length_map, length_seq. reflexivity. Qed.

Section Generation.

Variable draw : nat -> sample.
Variables (steps : Z) (remap : bool).
Hypothesis steps_positive : (1 <= steps)%Z.
Hypothesis steps_not_four : steps <> 4%Z.

(** The locals after [j] passes. *)
Local Notation after j :=
  (S j, Some (pack (samples draw j)),
   Some (pack (map (change steps remap) (samples draw j)))).

Lemma start_over_value (drawn : nat) :
  start_over draw steps remap drawn
  = Ok (S drawn, Some (Arr1 (to_array (draw drawn))),
        Some (Arr1 (change steps remap (to_array (draw drawn))))).
Proof.
  unfold start_over.
  rewrite (move_cart_sample steps remap _ steps_positive steps_not_four).
  cbn [bind]. rewrite change_sub. reflexivity.
Qed.

(** The first pass finds [x] unbound, throws its sample away and draws
    another one. *)
Lemma first_pass :
  generate_step draw steps remap (0%nat, None, None) = Ok (after 1%nat).
Proof.
  unfold generate_step.
  rewrite (move_cart_sample steps remap _ steps_positive steps_not_four).
  rewrite change_sub, start_over_value. reflexivity.
Qed.

Lemma later_pass (j : nat) :
  (1 <= j)%nat ->
  generate_step draw steps remap (after j) = Ok (after (S j)).
Proof.
  intros Hj. unfold generate_step.
  rewrite (move_cart_sample steps remap _ steps_positive steps_not_four).
  rewrite change_sub.
  rewrite (samples_succ draw j), map_app. cbn [map].
  destruct (samples draw j) as [|r t] eqn:E.
  { apply (f_equal (@length _)) in E. rewrite samples_length in E.
    cbn [length] in E. lia. }
  assert (Hr : length r = 5%nat).
  { destruct j as [|j]; [lia|].
    unfold samples in E. cbn [seq map] in E. injection E as <- _.
    apply to_array_length. }
  cbn [map].
  rewrite vstack_pack by (rewrite Hr, to_array_length; reflexivity).
  assert (Hc : length (change steps remap r) = 5%nat).
  { destruct j as [|j]; [lia|].
    unfold samples in E. cbn [seq map] in E. injection E as <- _.
    apply change_length. }
  rewrite vstack_pack by (rewrite Hc, change_length; reflexivity).
  reflexivity.
Qed.

Lemma later_passes (n j : nat) :
  (1 <= j)%nat ->
  generate_loop draw n steps remap (after j) = Ok (after (n + j)%nat).
Proof.
  revert j. induction n as [|n IH]; intros j Hj; [reflexivity|].
  cbn [generate_loop]. rewrite (later_pass j Hj). cbn [bind].
  rewrite IH by lia. replace (n + S j)%nat with (S n + j)%nat by lia.
  reflexivity.
Qed.

Lemma all_passes (n : nat) :
  generate_loop draw (S n) steps remap (0%nat, None, None)
  = Ok (after (S n)).
Proof.
  cbn [generate_loop]. rewrite first_pass. cbn [bind].
  rewrite later_passes by lia. replace (n + 1)%nat with (S n) by lia.
  reflexivity.
Qed.

End Generation.

(** [int] of a non-negative float is its floor. *)
Lemma py_int_floor (r : R) :
  0 <= r ->
  (0 <= py_int r)%Z /\ IZR (py_int r) <= r < IZR (py_int r) + 1.
Proof.
  intros Hr. unfold py_int. destruct (Rle_dec 0 r) as [_|N]; [|contradiction].
  destruct (base_Int_part r) as [Hl Hu].
  split; [|lra].
  assert (H : (-1 < Int_part r)%Z) by (apply lt_IZR; lra).
  lia.
Qed.



(** A single sample is kept as a 1-d array, so the split cuts through its
    five entries instead of through a list of rows: with a proportion below
    one the training arrays are empty and the test arrays are the sample
    and its change. *)
Theorem generate_data_single_sample (draw : nat -> sample) (steps : Z)
    (train_proportion : R) (remap : bool) :
  (1 <= steps)%Z -> steps <> 4%Z ->
  0 <= train_proportion < 1 ->
  generate_data draw 1 steps train_proportion remap
  = Ok (Arr1 [], Arr1 [], Arr1 (to_array (draw 1%nat)),
        Arr1 (change steps remap (to_array (draw 1%nat)))).
Proof.
  intros H1 H4 Htp. unfold generate_data.
  change (Z.to_nat 1) with 1%nat.
  rewrite (all_passes draw steps remap H1 H4 0). cbn [bind].
  assert (Hk : py_int (1 * train_proportion) = 0%Z).
  { assert (Hr : 0 <= 1 * train_proportion) by lra.
    destruct (py_int_floor _ Hr) as [Hk0 [Hkl Hku]].
    assert (py_int (1 * train_proportion) < 1)%Z by (apply lt_IZR; lra).
    lia. }
  rewrite Hk. reflexivity.
Qed.

Lemma generate_data_single_sample_witness :
  generate_data (fun i => (0, 0, INR i, 0, 0)) 1 1 (4 / 5) false
  = Ok (Arr1 [], Arr1 [], Arr1 (to_array (0, 0, INR 1, 0, 0)),
        Arr1 (change 1 false (to_array (0, 0, INR 1, 0, 0)))).
Proof.
  apply (generate_data_single_sample (fun i => (0, 0, INR i, 0, 0)) 1 (4 / 5)
           false); [lia | lia | lra].
Defined.

(** Asking for no samples, or for rollouts of no steps, leaves the arrays
    unbound: the call does not return. *)
Theorem generate_data_nothing_to_split (draw : nat -> sample) (n steps : Z)
    (train_proportion : R) (remap : bool) :
  (n <= 0)%Z \/ (steps <= 0)%Z ->
  generate_data draw n steps train_proportion remap = Raise UnboundLocalError.
Proof.
  intros H. unfold generate_data.
  destruct (Z.to_nat n) as [|m] eqn:Em; [reflexivity|].
  destruct H as [H|H]; [lia|].
  cbn [generate_loop generate_step].
  rewrite (move_cart_sample_fails steps remap _ H).
  unfold start_over.
  rewrite (move_cart_sample_fails steps remap _ H). reflexivity.
Qed.

Lemma generate_data_nothing_to_split_witness :
  generate_data (fun i => (0, 0, INR i, 0, 0)) 0 1 (4 / 5) false
  = Raise UnboundLocalError.
Proof.
  apply (generate_data_nothing_to_split (fun i => (0, 0, INR i, 0, 0)) 0 1
           (4 / 5) false).
  left. lia.
Defined.

End DataGenerationFacts.
